(** * odrpack driver: argument validation, job decoding and result assembly

    A shallow embedding of [src/odrpack/driver.py]: the function [odr], which
    validates and normalises its arguments, sizes the two work buffers, calls
    the compiled ODRPACK95 routine once and assembles an [OdrResult]; and its
    two helpers [_get_digit] and [_interpret_info].

    Python integers that are array extents (shapes, sizes, leading dimensions)
    are natural numbers; [job] and [info] are signed and are modelled in [Z];
    [np.float64] is the primitive binary64 float of the kernel. *)

From Stdlib Require Import ZArith String Bool Lia.
From Stdlib Require Import Floats.
From stdpp Require Import base option list strings gmap numbers.

Local Open Scope nat_scope.

(** ** Floats *)

Definition float64 : Type := PrimFloat.float.

(** [a >= b] and [a <= b] on float64 (both false as soon as one side is NaN). *)
Definition fge (a b : float64) : bool := PrimFloat.leb b a.
Definition fle (a b : float64) : bool := PrimFloat.leb a b.
Definition fadd (a b : float64) : float64 := PrimFloat.add a b.

(** ** Exceptions

    Every [raise] of the driver is a [ValueError] or a [TypeError] carrying a
    fixed message; [Message] has one constructor per [raise] statement, in
    source order.  [IndexError] and [KeyError] are the exceptions of tuple,
    array and dict subscripts, [ZeroDivisionError] that of [//] and [%]. *)

Inductive Message : Type :=
  | XRank            (* `x` must be a rank-1 array of shape `(n,)` or ... *)
  | YRank            (* `y` must be a rank-1 array of shape `(n,)` or ... *)
  | LastDimension    (* The last dimension of `x` and `y` must be identical *)
  | Beta0Rank        (* `beta0` must be a rank-1 array of shape `(npar,)` *)
  | LowerShape       (* `lower` must have the same shape as `beta0`. *)
  | LowerNotLess     (* `lower` must be less than `beta0`. *)
  | UpperShape       (* `upper` must have the same shape as `beta0`. *)
  | UpperNotGreater  (* `upper` must be greater than `beta0`. *)
  | IfixbShape       (* `ifixb` must have the same shape as `beta0`. *)
  | StpbShape        (* `stpb` must have the same shape as `beta0`. *)
  | SclbShape        (* `sclb` must have the same shape as `beta0`. *)
  | Delta0Shape      (* `delta0` must have the same shape as `x`. *)
  | Delta0Job        (* Inconsistent arguments for `job` and `delta0`. *)
  | IfixxShape       (* `ifixx` must either have the same shape as `x` or ... *)
  | StpdShape        (* `stpd` must either have the same shape as `x` or ... *)
  | ScldShape        (* `scld` must either have the same shape as `x` or ... *)
  | WeShape          (* `we` must be a array of shape `(nq,)`, `(n,)`, ... *)
  | WeType           (* `we` must be a float or an array. *)
  | WdShape          (* `wd` must be a array of shape `(m,)`, `(n,)`, ... *)
  | WdType           (* `wd` must be a float or an array. *)
  | FShape           (* Function `f` must return an array with the same shape as `y`. *)
  | FjacbShape       (* Function `fjacb` must return an array with shape ... *)
  | FjacbJob         (* Inconsistent arguments for `job` and `fjacb`. *)
  | FjacdShape       (* Function `fjacd` must return an array with shape ... *)
  | FjacdJob         (* Inconsistent arguments for `job` and `fjacd`. *)
  | WorkSize         (* Work array `work` does not have the correct length. *)
  | IworkSize        (* Work array `iwork` does not have the correct length. *)
  | WorkJob          (* Inconsistent arguments for `job`, `work` and `iwork`. *)
  | ReshapeSize.     (* numpy: cannot reshape array of size .. into shape .. *)

Inductive Error : Type :=
  | ValueError (msg : Message)
  | TypeError (msg : Message)
  | IndexError
  | KeyError (key : string)
  | ZeroDivisionError.

(** The error classes the specification speaks of. *)
Inductive ErrorKind : Type :=
  | ShapeMismatch
  | InvalidBounds
  | InconsistentJobArgument
  | RestartSizeMismatch.

Definition error_kind (e : Error) : option ErrorKind :=
  match e with
  | ValueError msg =>
      match msg with
      | XRank | YRank | LastDimension | Beta0Rank
      | LowerShape | UpperShape | IfixbShape | StpbShape | SclbShape
      | Delta0Shape | IfixxShape | StpdShape | ScldShape
      | WeShape | WdShape | FShape | FjacbShape | FjacdShape => Some ShapeMismatch
      | LowerNotLess | UpperNotGreater => Some InvalidBounds
      | Delta0Job | FjacbJob | FjacdJob | WorkJob => Some InconsistentJobArgument
      | WorkSize | IworkSize => Some RestartSizeMismatch
      | WeType | WdType | ReshapeSize => None
      end
  | TypeError _ | IndexError | KeyError _ | ZeroDivisionError => None
  end.

(** ** The exception monad *)

Definition result (A : Type) : Type := (Error + A)%type.

Definition raise {A : Type} (e : Error) : result A := inl e.

#[global] Instance result_ret : MRet result := λ A a, inr a.
#[global] Instance result_bind : MBind result := λ A B k c,
  match c with
  | inl e => inl e
  | inr a => k a
  end.

(** [if cond: raise e] *)
Definition raise_if (cond : bool) (e : Error) : result unit :=
  if cond then raise e else mret tt.

(** ** Arrays *)

Record ndarray (A : Type) : Type := NDArray { shape : list nat; data : list A }.
Arguments NDArray {A} _ _.
Arguments shape {A} _.
Arguments data {A} _.

Module np.

Definition ndim {A} (a : ndarray A) : nat := length (shape a).

(** [a.size]: the product of the axis lengths. *)
Definition size {A} (a : ndarray A) : nat := foldr Nat.mul 1 (shape a).

(** [a.shape[i]] for [i >= 0], and [a.shape[-1]]. *)
Definition shape_at {A} (a : ndarray A) (i : nat) : result nat :=
  match shape a !! i with
  | Some d => mret d
  | None => raise IndexError
  end.

Definition shape_last {A} (a : ndarray A) : result nat :=
  match list.last (shape a) with
  | Some d => mret d
  | None => raise IndexError
  end.

Definition copy {A} (a : ndarray A) : ndarray A := a.

(** [np.full(shp, v)] and [np.zeros(k)], [np.zeros_like(a)]. *)
Definition full {A} (shp : list nat) (v : A) : ndarray A :=
  NDArray shp (replicate (foldr Nat.mul 1 shp) v).

Definition zeros {A} (zero : A) (k : nat) : ndarray A := full [k] zero.

Definition zeros_like {A} (zero : A) (a : ndarray A) : ndarray A :=
  full (shape a) zero.

(** [np.tile(a, (m, 1))] for a rank-1 [a]: [m] copies of the vector, one
    per row. *)
Definition tile_rows {A} (a : ndarray A) (m : nat) : ndarray A :=
  NDArray (m :: shape a) (mjoin (replicate m (data a))).

(** [np.any(a >= b)] and [np.any(a <= b)] for arrays of one shape. *)
Definition any_ge (a b : ndarray float64) : bool :=
  existsb id (zip_with fge (data a) (data b)).

Definition any_le (a b : ndarray float64) : bool :=
  existsb id (zip_with fle (data a) (data b)).

(** [a + b] for arrays of one shape. *)
Definition add (a b : ndarray float64) : ndarray float64 :=
  NDArray (shape a) (zip_with fadd (data a) (data b)).

(** [np.reshape(v, shp)] of a flat vector. *)
Definition reshape {A} (v : list A) (shp : list nat) : result (ndarray A) :=
  if decide (length v = foldr Nat.mul 1 shp) then mret (NDArray shp v)
  else raise (ValueError ReshapeSize).

(** [buf[i : j].copy()] and [buf[i]] on a flat buffer. *)
Definition slice {A} (buf : ndarray A) (i j : nat) : list A :=
  take (j - i) (drop i (data buf)).

Definition item {A} (buf : ndarray A) (i : nat) : result A :=
  match data buf !! i with
  | Some v => mret v
  | None => raise IndexError
  end.

(** An array whose contents were overwritten in place. *)
Definition overwritten {A} (a : ndarray A) (contents : list A) : ndarray A :=
  NDArray (shape a) contents.

End np.

(** ** Job code *)

(** [a // b] and [a % b] on Python integers: floor division and the
    remainder with the sign of the divisor. *)
Definition floordiv (a b : Z) : result Z :=
  if (b =? 0)%Z then raise ZeroDivisionError else mret (a / b)%Z.

Definition modulo (a b : Z) : result Z :=
  if (b =? 0)%Z then raise ZeroDivisionError else mret (a mod b)%Z.

(** [_get_digit(number, ndigit)], for [ndigit >= 1] (the driver calls it with
    1, 2, 4 and 5), where [10**(ndigit-1)] is an integer. *)
Definition _get_digit (number ndigit : Z) : result Z :=
  q ← floordiv number (10 ^ (ndigit - 1));
  modulo q 10.

Record Flags : Type := MkFlags {
  is_odr : bool;
  has_jac : bool;
  has_delta0 : bool;
  is_restart : bool }.

(** # Interpret job *)
Definition interpret_job (job : Z) : result Flags :=
  d1 ← _get_digit job 1;
  d2 ← _get_digit job 2;
  d4 ← _get_digit job 4;
  d5 ← _get_digit job 5;
  mret {| is_odr := (d1 <? 2)%Z;
          has_jac := (d2 >? 1)%Z;
          has_delta0 := (d4 >? 0)%Z;
          is_restart := (d5 >? 0)%Z |}.

(** ** Exit status *)

Definition _interpret_info (info : Z) : string :=
  if (info =? 1)%Z then "Sum of squares convergence."
  else if (info =? 2)%Z then "Parameter convergence."
  else if (info =? 3)%Z then "Sum of squares and parameter convergence."
  else if (info =? 4)%Z then "Iteration limit reached."
  else if (info >=? 5)%Z then
    "Questionable results or fatal errors detected. See report and error message."
  else EmptyString.

(** ** Arguments of [odr] *)

(** A model function or Jacobian, [g(beta, x)]: pure and total. *)
Definition model : Type := ndarray float64 → ndarray float64 → ndarray float64.

(** A weight argument ([we], [wd]): a Python scalar ([float] or [int], held
    as the float64 it is stored as), a numpy array, or any other object. *)
Inductive weight : Type :=
  | WScalar (v : float64)
  | WArray (a : ndarray float64)
  | WObject.

Record Args : Type := MkArgs {
  arg_f : model;
  arg_beta0 : ndarray float64;
  arg_y : ndarray float64;
  arg_x : ndarray float64;
  arg_we : option weight;
  arg_wd : option weight;
  arg_fjacb : option model;
  arg_fjacd : option model;
  arg_ifixb : option (ndarray Z);
  arg_ifixx : option (ndarray Z);
  arg_delta0 : option (ndarray float64);
  arg_lower : option (ndarray float64);
  arg_upper : option (ndarray float64);
  arg_job : Z;
  arg_iprint : option Z;
  arg_rptfile : option string;
  arg_errfile : option string;
  arg_ndigit : option Z;
  arg_taufac : option float64;
  arg_sstol : option float64;
  arg_partol : option float64;
  arg_maxit : option Z;
  arg_stpb : option (ndarray float64);
  arg_stpd : option (ndarray float64);
  arg_sclb : option (ndarray float64);
  arg_scld : option (ndarray float64);
  arg_work : option (ndarray float64);
  arg_iwork : option (ndarray Z) }.

(** ** The checks of [odr], block by block *)

(** # Check x and y *)
Definition check_x_y (x y : ndarray float64) : result (nat * nat * nat) :=
  m ← (if decide (np.ndim x = 1) then mret 1
       else if decide (np.ndim x = 2) then np.shape_at x 0
       else raise (ValueError XRank));
  nq ← (if decide (np.ndim y = 1) then mret 1
        else if decide (np.ndim y = 2) then np.shape_at y 0
        else raise (ValueError YRank));
  xn ← np.shape_last x;
  yn ← np.shape_last y;
  n ← (if decide (xn = yn) then mret xn
       else raise (ValueError LastDimension));
  mret (m, nq, n).

(** # Check beta0 and related parameters *)
Definition check_beta0 (beta0 : ndarray float64)
  : result (nat * ndarray float64) :=
  if decide (np.ndim beta0 = 1) then mret (np.size beta0, np.copy beta0)
  else raise (ValueError Beta0Rank).

(** The two blocks together: the dimensions [m], [nq], [n], [npar] of the
    problem (and the working copy of [beta0]). *)
Definition check_dimensions (x y beta0 : ndarray float64)
  : result (nat * nat * nat * nat * ndarray float64) :=
  '(m, nq, n) ← check_x_y x y;
  '(npar, beta) ← check_beta0 beta0;
  mret (m, nq, n, npar, beta).

Definition check_lower (lower : option (ndarray float64))
    (beta0 : ndarray float64) : result unit :=
  match lower with
  | Some lo =>
      _ ← raise_if (bool_decide (shape lo ≠ shape beta0)) (ValueError LowerShape);
      raise_if (np.any_ge lo beta0) (ValueError LowerNotLess)
  | None => mret tt
  end.

Definition check_upper (upper : option (ndarray float64))
    (beta0 : ndarray float64) : result unit :=
  match upper with
  | Some up =>
      _ ← raise_if (bool_decide (shape up ≠ shape beta0)) (ValueError UpperShape);
      raise_if (np.any_le up beta0) (ValueError UpperNotGreater)
  | None => mret tt
  end.

(** [if arg is not None and arg.shape != beta0.shape: raise ...], the check
    of [ifixb], [stpb] and [sclb]. *)
Definition check_like_beta0 {A} (msg : Message) (arg : option (ndarray A))
    (beta0 : ndarray float64) : result unit :=
  match arg with
  | Some a => raise_if (bool_decide (shape a ≠ shape beta0)) (ValueError msg)
  | None => mret tt
  end.

(** # Check delta0 *)
Definition check_delta0 (has_delta0 : bool) (delta0 : option (ndarray float64))
    (x : ndarray float64) : result (ndarray float64) :=
  match has_delta0, delta0 with
  | true, Some d0 =>
      _ ← raise_if (bool_decide (shape d0 ≠ shape x)) (ValueError Delta0Shape);
      mret (np.copy d0)
  | false, None => mret (np.zeros_like 0%float x)
  | _, _ => raise (ValueError Delta0Job)
  end.

(** # Check ifixx, # Check stpd, # Check scld: the three blocks are the same
    code up to the name of the argument.  The result is the leading
    dimension and the (possibly tiled) array. *)
Definition check_like_x {A} (msg : Message) (arg : option (ndarray A))
    (x : ndarray float64) (m n : nat) : result (nat * option (ndarray A)) :=
  match arg with
  | Some a =>
      if decide (shape a = shape x) then mret (n, Some a)
      else if decide (shape a = [m] ∧ 1 < m ∧ n ≠ m) then mret (1, Some a)
      else if decide (shape a = [n] ∧ 1 < m ∧ n ≠ m) then
        mret (n, Some (np.tile_rows a m))
      else raise (ValueError msg)
  | None => mret (1, None)
  end.

Definition check_ifixx := @check_like_x Z IfixxShape.
Definition check_stpd := @check_like_x float64 StpdShape.
Definition check_scld := @check_like_x float64 ScldShape.

(** # Check we, # Check wd: the same code with [(we, nq)] and [(wd, m)].
    The result is [(ld, ld2, w)]. *)
Definition check_weight (shape_msg type_msg : Message) (w : option weight)
    (q n : nat) : result (nat * nat * option (ndarray float64)) :=
  match w with
  | Some (WScalar v) => mret (1, 1, Some (np.full [q] v))
  | Some (WArray a) =>
      if decide (shape a = [q]) then mret (1, 1, Some a)
      else if decide (shape a = [q; q]) then mret (1, q, Some a)
      else if decide (shape a = [q; n] ∨ (shape a = [n] ∧ q = 1)) then
        mret (n, 1, Some a)
      else if decide (shape a ∈ [[q; 1; 1]; [q; 1; n]; [q; q; 1]; [q; q; n]]) then
        ld ← np.shape_at a 2;
        ld2 ← np.shape_at a 1;
        mret (ld, ld2, Some a)
      else raise (ValueError shape_msg)
  | Some WObject => raise (TypeError type_msg)
  | None => mret (1, 1, None)
  end.

Definition check_we := check_weight WeShape WeType.
Definition check_wd := check_weight WdShape WdType.

(** # Check model function and jacobians *)
Definition check_f (f : model) (beta0 x y : ndarray float64) : result unit :=
  let f0 := f beta0 x in
  raise_if (bool_decide (shape f0 ≠ shape y)) (ValueError FShape).

Definition fdummy : model := λ _ _, NDArray [1] [PrimFloat.nan].

(** The check of [fjacb] (with [k = npar]) and of [fjacd] (with [k = m]). *)
Definition check_jacobian (shape_msg job_msg : Message) (has_jac : bool)
    (fjac : option model) (beta0 x : ndarray float64) (n k nq : nat)
  : result model :=
  match has_jac, fjac with
  | true, Some g =>
      let g0 := g beta0 x in
      last ← np.shape_last g0;
      _ ← raise_if (bool_decide (last ≠ n) || bool_decide (np.size g0 ≠ n * k * nq))
            (ValueError shape_msg);
      mret g
  | false, None => mret fdummy
  | _, _ => raise (ValueError job_msg)
  end.

(** # Check/allocate work arrays *)
Definition check_work (is_restart : bool) (work : option (ndarray float64))
    (iwork : option (ndarray Z)) (lwork liwork : nat)
  : result (ndarray float64 * ndarray Z) :=
  match is_restart, work, iwork with
  | false, None, None => mret (np.zeros 0%float lwork, np.zeros 0%Z liwork)
  | true, Some w, Some iw =>
      _ ← raise_if (bool_decide (np.size w ≠ lwork)) (ValueError WorkSize);
      _ ← raise_if (bool_decide (np.size iw ≠ liwork)) (ValueError IworkSize);
      mret (w, iw)
  | _, _, _ => raise (ValueError WorkJob)
  end.

(** ** The call of the compiled routine *)

(** The local variables of [odr] when the checks are over. *)
Record Locals : Type := MkLocals {
  l_flags : Flags;
  l_m : nat;
  l_nq : nat;
  l_n : nat;
  l_npar : nat;
  l_beta : ndarray float64;
  l_delta : ndarray float64;
  l_ldifx : nat;
  l_ifixx : option (ndarray Z);
  l_ldstpd : nat;
  l_stpd : option (ndarray float64);
  l_ldscld : nat;
  l_scld : option (ndarray float64);
  l_ldwe : nat;
  l_ld2we : nat;
  l_we : option (ndarray float64);
  l_ldwd : nat;
  l_ld2wd : nat;
  l_wd : option (ndarray float64);
  l_fjacb : model;
  l_fjacd : model;
  l_lwork : nat;
  l_liwork : nat;
  l_work : ndarray float64;
  l_iwork : ndarray Z }.

(** The keyword arguments of [_odr(...)]. *)
Record OdrCall : Type := MkOdrCall {
  c_n : nat;  c_m : nat;  c_npar : nat;  c_nq : nat;
  c_ldwe : nat;  c_ld2we : nat;
  c_ldwd : nat;  c_ld2wd : nat;
  c_ldifx : nat;
  c_ldstpd : nat;  c_ldscld : nat;
  c_f : model;  c_fjacb : model;  c_fjacd : model;
  c_beta : ndarray float64;  c_y : ndarray float64;  c_x : ndarray float64;
  c_delta : ndarray float64;
  c_we : option (ndarray float64);  c_wd : option (ndarray float64);
  c_ifixb : option (ndarray Z);  c_ifixx : option (ndarray Z);
  c_lower : option (ndarray float64);  c_upper : option (ndarray float64);
  c_work : ndarray float64;  c_iwork : ndarray Z;
  c_job : Z;
  c_ndigit : option Z;  c_taufac : option float64;  c_sstol : option float64;
  c_partol : option float64;  c_maxit : option Z;
  c_iprint : option Z;  c_errfile : option string;  c_rptfile : option string }.

(** What the routine leaves behind: its return value [info] and the new
    contents of the four arrays it modifies in place. *)
Record SolverOut : Type := MkSolverOut {
  out_info : Z;
  out_beta : list float64;
  out_delta : list float64;
  out_work : list float64;
  out_iwork : list Z }.

(** Modelled from the spec: the class [OdrResult] of [odrpack.result] is
    imported by the driver and its declaration is not among the sources; it
    is the immutable record RegressionResult of the specification, with the
    fields the driver passes to its constructor. *)
Module OdrResult.
Record t : Type := Make {
  beta : ndarray float64;
  delta : ndarray float64;
  eps : ndarray float64;
  xplus : ndarray float64;
  yest : ndarray float64;
  sd_beta : ndarray float64;
  cov_beta : ndarray float64;
  res_var : float64;
  info : Z;
  stopreason : string;
  success : bool;
  nfev : Z;
  njev : Z;
  niter : Z;
  irank : Z;
  inv_condnum : float64;
  sum_square : float64;
  sum_square_delta : float64;
  sum_square_eps : float64;
  iwork : ndarray Z;
  work : ndarray float64 }.
End OdrResult.

(** [d[key]] on a dict. *)
Definition getitem (d : gmap string nat) (key : string) : result nat :=
  match d !! key with
  | Some i => mret i
  | None => raise (KeyError key)
  end.

Section Driver.

(** The functions of the compiled module [odrpack.__odrpack]. *)
Variable workspace_dimensions : nat → nat → nat → nat → bool → nat * nat.
Variable diwinf : nat → nat → nat → gmap string nat.
Variable dwinf : nat → nat → nat → nat → nat → nat → bool → gmap string nat.
Variable _odr : OdrCall → SolverOut.

(** [odr] from its first line to the call of [_odr]. *)
Definition validate (a : Args) : result Locals :=
  flags ← interpret_job (arg_job a);
  '(m, nq, n, npar, beta) ← check_dimensions (arg_x a) (arg_y a) (arg_beta0 a);
  _ ← check_lower (arg_lower a) (arg_beta0 a);
  _ ← check_upper (arg_upper a) (arg_beta0 a);
  _ ← check_like_beta0 IfixbShape (arg_ifixb a) (arg_beta0 a);
  _ ← check_like_beta0 StpbShape (arg_stpb a) (arg_beta0 a);
  _ ← check_like_beta0 SclbShape (arg_sclb a) (arg_beta0 a);
  delta ← check_delta0 (has_delta0 flags) (arg_delta0 a) (arg_x a);
  '(ldifx, ifixx) ← check_ifixx (arg_ifixx a) (arg_x a) m n;
  '(ldstpd, stpd) ← check_stpd (arg_stpd a) (arg_x a) m n;
  '(ldscld, scld) ← check_scld (arg_scld a) (arg_x a) m n;
  '(ldwe, ld2we, we) ← check_we (arg_we a) nq n;
  '(ldwd, ld2wd, wd) ← check_wd (arg_wd a) m n;
  _ ← check_f (arg_f a) (arg_beta0 a) (arg_x a) (arg_y a);
  fjacb ← check_jacobian FjacbShape FjacbJob (has_jac flags) (arg_fjacb a)
            (arg_beta0 a) (arg_x a) n npar nq;
  fjacd ← check_jacobian FjacdShape FjacdJob (has_jac flags) (arg_fjacd a)
            (arg_beta0 a) (arg_x a) n m nq;
  let '(lwork, liwork) := workspace_dimensions n m npar nq (is_odr flags) in
  '(work, iwork) ← check_work (is_restart flags) (arg_work a) (arg_iwork a)
                     lwork liwork;
  mret (MkLocals flags m nq n npar beta delta ldifx ifixx ldstpd stpd
          ldscld scld ldwe ld2we we ldwd ld2wd wd fjacb fjacd
          lwork liwork work iwork).

Definition odr_call (a : Args) (l : Locals) : OdrCall :=
  {| c_n := l_n l;  c_m := l_m l;  c_npar := l_npar l;  c_nq := l_nq l;
     c_ldwe := l_ldwe l;  c_ld2we := l_ld2we l;
     c_ldwd := l_ldwd l;  c_ld2wd := l_ld2wd l;
     c_ldifx := l_ldifx l;
     c_ldstpd := l_ldstpd l;  c_ldscld := l_ldscld l;
     c_f := arg_f a;  c_fjacb := l_fjacb l;  c_fjacd := l_fjacd l;
     c_beta := l_beta l;  c_y := arg_y a;  c_x := arg_x a;
     c_delta := l_delta l;
     c_we := l_we l;  c_wd := l_wd l;
     c_ifixb := arg_ifixb a;  c_ifixx := l_ifixx l;
     c_lower := arg_lower a;  c_upper := arg_upper a;
     c_work := l_work l;  c_iwork := l_iwork l;
     c_job := arg_job a;
     c_ndigit := arg_ndigit a;  c_taufac := arg_taufac a;
     c_sstol := arg_sstol a;  c_partol := arg_partol a;
     c_maxit := arg_maxit a;
     c_iprint := arg_iprint a;  c_errfile := arg_errfile a;
     c_rptfile := arg_rptfile a |}.

(** [odr] after the call of [_odr]: the index maps, the slices of the
    work array and the result. *)
Definition assemble (a : Args) (l : Locals) (out : SolverOut)
  : result OdrResult.t :=
  let info := out_info out in
  let beta := np.overwritten (l_beta l) (out_beta out) in
  let delta := np.overwritten (l_delta l) (out_delta out) in
  let work := np.overwritten (l_work l) (out_work out) in
  let iwork := np.overwritten (l_iwork l) (out_iwork out) in
  let x := arg_x a in
  let y := arg_y a in
  let iwork_idx := diwinf (l_m l) (l_npar l) (l_nq l) in
  let work_idx :=
    dwinf (l_n l) (l_m l) (l_npar l) (l_nq l) (l_ldwe l) (l_ld2we l)
      (is_odr (l_flags l)) in
  i0_eps ← getitem work_idx "eps";
  eps ← np.reshape (np.slice work i0_eps (i0_eps + np.size y)) (shape y);
  i0_sd ← getitem work_idx "sd";
  let sd := np.slice work i0_sd (i0_sd + np.size beta) in
  let sd_beta := NDArray [length sd] sd in
  i0_vcv ← getitem work_idx "vcv";
  cov_beta ← np.reshape (np.slice work i0_vcv (i0_vcv + np.size beta ^ 2))
               [np.size beta; np.size beta];
  res_var ← getitem work_idx "rvar" ≫= np.item work;
  nfev ← getitem iwork_idx "nfev" ≫= np.item iwork;
  njev ← getitem iwork_idx "njev" ≫= np.item iwork;
  niter ← getitem iwork_idx "niter" ≫= np.item iwork;
  irank ← getitem iwork_idx "irank" ≫= np.item iwork;
  inv_condnum ← getitem work_idx "rcond" ≫= np.item work;
  sum_square ← getitem work_idx "wss" ≫= np.item work;
  sum_square_delta ← getitem work_idx "wssde" ≫= np.item work;
  sum_square_eps ← getitem work_idx "wssep" ≫= np.item work;
  mret {| OdrResult.beta := beta;
          OdrResult.delta := delta;
          OdrResult.eps := eps;
          OdrResult.xplus := np.add x delta;
          OdrResult.yest := np.add y eps;
          OdrResult.sd_beta := sd_beta;
          OdrResult.cov_beta := cov_beta;
          OdrResult.res_var := res_var;
          OdrResult.info := info;
          OdrResult.stopreason := _interpret_info info;
          OdrResult.success := (info <? 4)%Z;
          OdrResult.nfev := nfev;
          OdrResult.njev := njev;
          OdrResult.niter := niter;
          OdrResult.irank := irank;
          OdrResult.inv_condnum := inv_condnum;
          OdrResult.sum_square := sum_square;
          OdrResult.sum_square_delta := sum_square_delta;
          OdrResult.sum_square_eps := sum_square_eps;
          OdrResult.iwork := iwork;
          OdrResult.work := work |}.

Definition odr (a : Args) : result OdrResult.t :=
  l ← validate a;
  assemble a l (_odr (odr_call a l)).

End Driver.


(** [a] with one keyword argument replaced. *)
Definition with_ifixx (a : Args) (v : option (ndarray Z)) : Args :=
    {| arg_f := arg_f a;  arg_beta0 := arg_beta0 a;  arg_y := arg_y a;
       arg_x := arg_x a;  arg_we := arg_we a;  arg_wd := arg_wd a;
       arg_fjacb := arg_fjacb a;  arg_fjacd := arg_fjacd a;  arg_ifixb := arg_ifixb a;
       arg_ifixx := v;  arg_delta0 := arg_delta0 a;  arg_lower := arg_lower a;
       arg_upper := arg_upper a;  arg_job := arg_job a;  arg_iprint := arg_iprint a;
       arg_rptfile := arg_rptfile a;  arg_errfile := arg_errfile a;  arg_ndigit := arg_ndigit a;
       arg_taufac := arg_taufac a;  arg_sstol := arg_sstol a;  arg_partol := arg_partol a;
       arg_maxit := arg_maxit a;  arg_stpb := arg_stpb a;  arg_stpd := arg_stpd a;
       arg_sclb := arg_sclb a;  arg_scld := arg_scld a;  arg_work := arg_work a;
       arg_iwork := arg_iwork a |}.

Definition with_stpd (a : Args) (v : option (ndarray float64)) : Args :=
    {| arg_f := arg_f a;  arg_beta0 := arg_beta0 a;  arg_y := arg_y a;
       arg_x := arg_x a;  arg_we := arg_we a;  arg_wd := arg_wd a;
       arg_fjacb := arg_fjacb a;  arg_fjacd := arg_fjacd a;  arg_ifixb := arg_ifixb a;
       arg_ifixx := arg_ifixx a;  arg_delta0 := arg_delta0 a;  arg_lower := arg_lower a;
       arg_upper := arg_upper a;  arg_job := arg_job a;  arg_iprint := arg_iprint a;
       arg_rptfile := arg_rptfile a;  arg_errfile := arg_errfile a;  arg_ndigit := arg_ndigit a;
       arg_taufac := arg_taufac a;  arg_sstol := arg_sstol a;  arg_partol := arg_partol a;
       arg_maxit := arg_maxit a;  arg_stpb := arg_stpb a;  arg_stpd := v;
       arg_sclb := arg_sclb a;  arg_scld := arg_scld a;  arg_work := arg_work a;
       arg_iwork := arg_iwork a |}.

Definition with_scld (a : Args) (v : option (ndarray float64)) : Args :=
    {| arg_f := arg_f a;  arg_beta0 := arg_beta0 a;  arg_y := arg_y a;
       arg_x := arg_x a;  arg_we := arg_we a;  arg_wd := arg_wd a;
       arg_fjacb := arg_fjacb a;  arg_fjacd := arg_fjacd a;  arg_ifixb := arg_ifixb a;
       arg_ifixx := arg_ifixx a;  arg_delta0 := arg_delta0 a;  arg_lower := arg_lower a;
       arg_upper := arg_upper a;  arg_job := arg_job a;  arg_iprint := arg_iprint a;
       arg_rptfile := arg_rptfile a;  arg_errfile := arg_errfile a;  arg_ndigit := arg_ndigit a;
       arg_taufac := arg_taufac a;  arg_sstol := arg_sstol a;  arg_partol := arg_partol a;
       arg_maxit := arg_maxit a;  arg_stpb := arg_stpb a;  arg_stpd := arg_stpd a;
       arg_sclb := arg_sclb a;  arg_scld := v;  arg_work := arg_work a;
       arg_iwork := arg_iwork a |}.

Definition with_bounds (a : Args) (lower upper : option (ndarray float64)) : Args :=
    {| arg_f := arg_f a;  arg_beta0 := arg_beta0 a;  arg_y := arg_y a;
       arg_x := arg_x a;  arg_we := arg_we a;  arg_wd := arg_wd a;
       arg_fjacb := arg_fjacb a;  arg_fjacd := arg_fjacd a;  arg_ifixb := arg_ifixb a;
       arg_ifixx := arg_ifixx a;  arg_delta0 := arg_delta0 a;  arg_lower := lower;
       arg_upper := upper;  arg_job := arg_job a;  arg_iprint := arg_iprint a;
       arg_rptfile := arg_rptfile a;  arg_errfile := arg_errfile a;  arg_ndigit := arg_ndigit a;
       arg_taufac := arg_taufac a;  arg_sstol := arg_sstol a;  arg_partol := arg_partol a;
       arg_maxit := arg_maxit a;  arg_stpb := arg_stpb a;  arg_stpd := arg_stpd a;
       arg_sclb := arg_sclb a;  arg_scld := arg_scld a;  arg_work := arg_work a;
       arg_iwork := arg_iwork a |}.

Definition with_work (a : Args) (job : Z) (work : option (ndarray float64))
    (iwork : option (ndarray Z)) : Args :=
    {| arg_f := arg_f a;  arg_beta0 := arg_beta0 a;  arg_y := arg_y a;
       arg_x := arg_x a;  arg_we := arg_we a;  arg_wd := arg_wd a;
       arg_fjacb := arg_fjacb a;  arg_fjacd := arg_fjacd a;  arg_ifixb := arg_ifixb a;
       arg_ifixx := arg_ifixx a;  arg_delta0 := arg_delta0 a;  arg_lower := arg_lower a;
       arg_upper := arg_upper a;  arg_job := job;  arg_iprint := arg_iprint a;
       arg_rptfile := arg_rptfile a;  arg_errfile := arg_errfile a;  arg_ndigit := arg_ndigit a;
       arg_taufac := arg_taufac a;  arg_sstol := arg_sstol a;  arg_partol := arg_partol a;
       arg_maxit := arg_maxit a;  arg_stpb := arg_stpb a;  arg_stpd := arg_stpd a;
       arg_sclb := arg_sclb a;  arg_scld := arg_scld a;  arg_work := work;
       arg_iwork := iwork |}.

(** The decimal digits of a non-negative integer, least significant first. *)
Fixpoint digits_upto (fuel : nat) (n : Z) : list Z :=
  match fuel with
  | O => []
  | S fuel => if (n =? 0)%Z then [] else (n mod 10)%Z :: digits_upto fuel (n / 10)%Z
  end.

Definition to_digits (n : Z) : list Z := digits_upto (Z.to_nat n) n.

(** ** The specification's reading of the rules *)

(** Section 4.2: the inputs that dimension inference turns down: [x] of rank
    other than 1 or 2, [y] of rank other than 1 or 2, trailing axis lengths
    that disagree, or [beta0] not of rank 1. *)
Definition spec_bad_dimensions (x y beta0 : ndarray float64) : Prop :=
  ¬ (np.ndim x = 1 ∨ np.ndim x = 2)
  ∨ ¬ (np.ndim y = 1 ∨ np.ndim y = 2)
  ∨ list.last (shape x) ≠ list.last (shape y)
  ∨ np.ndim beta0 ≠ 1.

(** Section 4.2: [(m, nq, n, npar)]: [m = 1] for a rank-1 [x], else
    [x.shape[0]]; [nq] likewise from [y]; [n] the trailing axis length;
    [npar] the length of [beta0]. *)
Definition spec_dimensions (x y beta0 : ndarray float64)
  : nat * nat * nat * nat :=
  (if decide (np.ndim x = 1) then 1 else default 0 (shape x !! 0),
   if decide (np.ndim y = 1) then 1 else default 0 (shape y !! 0),
   default 0 (list.last (shape x)),
   default 0 (shape beta0 !! 0)).

(** The digit extraction of the specification, section 4.1:
    digit(code, k) = (code / 10^(k-1)) mod 10. *)
Definition spec_digit (code k : Z) : Z := ((code / 10 ^ (k - 1)) mod 10)%Z.

(** The number whose decimal digits, least significant first, are [ds]. *)
Fixpoint of_digits (ds : list Z) : Z :=
  match ds with
  | [] => 0
  | d :: ds => d + 10 * of_digits ds
  end%Z.

Definition decimal (ds : list Z) : Prop := Forall (λ d, 0 ≤ d < 10)%Z ds.

(** The ordered table of weight shapes as the specification words it in
    section 4.3, for an array of shape [shp]: the descriptor [(ld, ld2)] of
    the first entry that matches, [None] when no entry does.  In the last
    entry the trailing two axis lengths are taken as the driver takes them,
    [ld] from the last axis and [ld2] from the one before. *)
Definition spec_weight_table (q n : nat) (shp : list nat) : option (nat * nat) :=
  if decide (shp = [q] ∨ (shp = [n] ∧ q = 1)) then Some (n, 1)
  else if decide (shp = [q; q]) then Some (1, q)
  else if decide (shp = [q; n] ∨ (shp = [n] ∧ q = 1)) then Some (n, 1)
  else if decide (shp ∈ [[q; 1; 1]; [q; 1; n]; [q; q; 1]; [q; q; n]]) then
    match shp with
    | [_; d1; d2] => Some (d2, d1)
    | _ => None
    end
  else None.

(** ** A concrete setting for the examples *)

Module Sample.

(** Buffer lengths of ODRPACK95; the second is the specification's
    [20 + 2 npar + nq (npar + m)]. *)
Definition workspace_dimensions (n m npar nq : nat) (isodr : bool)
  : nat * nat :=
  let lwork :=
    if isodr then
      18 + 13 * npar + npar ^ 2 + m + m ^ 2 + 4 * n * nq + 6 * n * m
      + 2 * n * nq * npar + 2 * n * nq * m + nq ^ 2 + 5 * nq
      + nq * (npar + m) + n * nq * nq
    else
      18 + 13 * npar + npar ^ 2 + m + m ^ 2 + 4 * n * nq + 2 * n * m
      + 2 * n * nq * npar + 5 * nq + nq * (npar + m) + n * nq * nq in
  (lwork, 20 + 2 * npar + nq * (npar + m)).

(** Offsets of the integer fields that [odr] reads. *)
Definition diwinf (m npar nq : nat) : gmap string nat :=
  let base := nq * npar + nq * m + npar + 2 in
  list_to_map
    [("niter", base + 12); ("nfev", base + 13); ("njev", base + 14);
     ("irank", base + 16)]%string.

(** Offsets of the real fields that [odr] reads: the leading blocks of the
    real work array, in order. *)
Definition dwinf (n m npar nq ldwe ld2we : nat) (isodr : bool)
  : gmap string nat :=
  let epsi := n * m in
  let sdi := epsi + n * nq + n * m + n * nq in
  let vcvi := sdi + npar in
  let rvari := vcvi + npar * npar in
  list_to_map
    [("delta", 0); ("eps", epsi); ("sd", sdi); ("vcv", vcvi);
     ("rvar", rvari); ("wss", rvari + 1); ("wssde", rvari + 2);
     ("wssep", rvari + 3); ("rcond", rvari + 4)]%string.

(** A routine that stops at once with sum-of-squares convergence, keeps
    [beta], and fills [delta] with 0.5, [work] with 0.25 and [iwork]
    with 7. *)
Definition _odr (c : OdrCall) : SolverOut :=
  {| out_info := 1;
     out_beta := data (c_beta c);
     out_delta := map (λ _, 0.5%float) (data (c_delta c));
     out_work := map (λ _, 0.25%float) (data (c_work c));
     out_iwork := map (λ _, 7%Z) (data (c_iwork c)) |}.

Definition vec (v : list float64) : ndarray float64 := NDArray [length v] v.

(** [f(beta, x) = beta[0] * x] *)
Definition f : model := λ beta x,
  NDArray (shape x) (map (PrimFloat.mul (default 0%float (data beta !! 0))) (data x)).

(** [odr(f, beta0, y, x)] with every keyword argument left out. *)
Definition plain (beta0 y x : ndarray float64) : Args :=
  {| arg_f := f; arg_beta0 := beta0; arg_y := y; arg_x := x;
     arg_we := None; arg_wd := None; arg_fjacb := None; arg_fjacd := None;
     arg_ifixb := None; arg_ifixx := None; arg_delta0 := None;
     arg_lower := None; arg_upper := None; arg_job := 0;
     arg_iprint := Some 0%Z; arg_rptfile := None; arg_errfile := None;
     arg_ndigit := None; arg_taufac := None; arg_sstol := None;
     arg_partol := None; arg_maxit := None; arg_stpb := None;
     arg_stpd := None; arg_sclb := None; arg_scld := None;
     arg_work := None; arg_iwork := None |}.

(** The same call with [lower] and [upper] given. *)
Definition bounded (lower upper : option (ndarray float64))
    (beta0 y x : ndarray float64) : Args :=
  with_bounds (plain beta0 y x) lower upper.

Definition x3 : ndarray float64 := vec [1; 2; 3]%float.
Definition y3 : ndarray float64 := vec [2; 4; 6]%float.
Definition beta2 : ndarray float64 := vec [1; 0.5]%float.

(** The call of the examples, and the same call as a restart. *)
Definition call : Args := plain beta2 y3 x3.

Definition restart (work : option (ndarray float64))
    (iwork : option (ndarray Z)) : Args :=
  with_work call 10000 work iwork.

Definition validate := validate workspace_dimensions.
Definition odr := odr workspace_dimensions diwinf dwinf _odr.

End Sample.

(** ** What a successful validation means, check by check *)

Record validated (workspace_dimensions : nat → nat → nat → nat → bool → nat * nat)
    (a : Args) (l : Locals) : Prop := MkValidated {
  v_job : interpret_job (arg_job a) = inr (l_flags l);
  v_dimensions :
    check_dimensions (arg_x a) (arg_y a) (arg_beta0 a)
    = inr (l_m l, l_nq l, l_n l, l_npar l, l_beta l);
  v_lower : check_lower (arg_lower a) (arg_beta0 a) = inr tt;
  v_upper : check_upper (arg_upper a) (arg_beta0 a) = inr tt;
  v_ifixb : check_like_beta0 IfixbShape (arg_ifixb a) (arg_beta0 a) = inr tt;
  v_stpb : check_like_beta0 StpbShape (arg_stpb a) (arg_beta0 a) = inr tt;
  v_sclb : check_like_beta0 SclbShape (arg_sclb a) (arg_beta0 a) = inr tt;
  v_delta0 :
    check_delta0 (has_delta0 (l_flags l)) (arg_delta0 a) (arg_x a)
    = inr (l_delta l);
  v_ifixx :
    check_ifixx (arg_ifixx a) (arg_x a) (l_m l) (l_n l)
    = inr (l_ldifx l, l_ifixx l);
  v_stpd :
    check_stpd (arg_stpd a) (arg_x a) (l_m l) (l_n l)
    = inr (l_ldstpd l, l_stpd l);
  v_scld :
    check_scld (arg_scld a) (arg_x a) (l_m l) (l_n l)
    = inr (l_ldscld l, l_scld l);
  v_we : check_we (arg_we a) (l_nq l) (l_n l) = inr (l_ldwe l, l_ld2we l, l_we l);
  v_wd : check_wd (arg_wd a) (l_m l) (l_n l) = inr (l_ldwd l, l_ld2wd l, l_wd l);
  v_f : check_f (arg_f a) (arg_beta0 a) (arg_x a) (arg_y a) = inr tt;
  v_fjacb :
    check_jacobian FjacbShape FjacbJob (has_jac (l_flags l)) (arg_fjacb a)
      (arg_beta0 a) (arg_x a) (l_n l) (l_npar l) (l_nq l)
    = inr (l_fjacb l);
  v_fjacd :
    check_jacobian FjacdShape FjacdJob (has_jac (l_flags l)) (arg_fjacd a)
      (arg_beta0 a) (arg_x a) (l_n l) (l_m l) (l_nq l)
    = inr (l_fjacd l);
  v_lengths :
    workspace_dimensions (l_n l) (l_m l) (l_npar l) (l_nq l) (is_odr (l_flags l))
    = (l_lwork l, l_liwork l);
  v_work :
    check_work (is_restart (l_flags l)) (arg_work a) (arg_iwork a)
      (l_lwork l) (l_liwork l)
    = inr (l_work l, l_iwork l) }.

(** ** Further notions for the properties *)

Definition with_stpb (a : Args) (v : option (ndarray float64)) : Args :=
    {| arg_f := arg_f a;  arg_beta0 := arg_beta0 a;  arg_y := arg_y a;
       arg_x := arg_x a;  arg_we := arg_we a;  arg_wd := arg_wd a;
       arg_fjacb := arg_fjacb a;  arg_fjacd := arg_fjacd a;  arg_ifixb := arg_ifixb a;
       arg_ifixx := arg_ifixx a;  arg_delta0 := arg_delta0 a;  arg_lower := arg_lower a;
       arg_upper := arg_upper a;  arg_job := arg_job a;  arg_iprint := arg_iprint a;
       arg_rptfile := arg_rptfile a;  arg_errfile := arg_errfile a;  arg_ndigit := arg_ndigit a;
       arg_taufac := arg_taufac a;  arg_sstol := arg_sstol a;  arg_partol := arg_partol a;
       arg_maxit := arg_maxit a;  arg_stpb := v;  arg_stpd := arg_stpd a;
       arg_sclb := arg_sclb a;  arg_scld := arg_scld a;  arg_work := arg_work a;
       arg_iwork := arg_iwork a |}.

Definition with_sclb (a : Args) (v : option (ndarray float64)) : Args :=
    {| arg_f := arg_f a;  arg_beta0 := arg_beta0 a;  arg_y := arg_y a;
       arg_x := arg_x a;  arg_we := arg_we a;  arg_wd := arg_wd a;
       arg_fjacb := arg_fjacb a;  arg_fjacd := arg_fjacd a;  arg_ifixb := arg_ifixb a;
       arg_ifixx := arg_ifixx a;  arg_delta0 := arg_delta0 a;  arg_lower := arg_lower a;
       arg_upper := arg_upper a;  arg_job := arg_job a;  arg_iprint := arg_iprint a;
       arg_rptfile := arg_rptfile a;  arg_errfile := arg_errfile a;  arg_ndigit := arg_ndigit a;
       arg_taufac := arg_taufac a;  arg_sstol := arg_sstol a;  arg_partol := arg_partol a;
       arg_maxit := arg_maxit a;  arg_stpb := arg_stpb a;  arg_stpd := arg_stpd a;
       arg_sclb := v;  arg_scld := arg_scld a;  arg_work := arg_work a;
       arg_iwork := arg_iwork a |}.

Definition with_we (a : Args) (v : option weight) : Args :=
    {| arg_f := arg_f a;  arg_beta0 := arg_beta0 a;  arg_y := arg_y a;
       arg_x := arg_x a;  arg_we := v;  arg_wd := arg_wd a;
       arg_fjacb := arg_fjacb a;  arg_fjacd := arg_fjacd a;  arg_ifixb := arg_ifixb a;
       arg_ifixx := arg_ifixx a;  arg_delta0 := arg_delta0 a;  arg_lower := arg_lower a;
       arg_upper := arg_upper a;  arg_job := arg_job a;  arg_iprint := arg_iprint a;
       arg_rptfile := arg_rptfile a;  arg_errfile := arg_errfile a;  arg_ndigit := arg_ndigit a;
       arg_taufac := arg_taufac a;  arg_sstol := arg_sstol a;  arg_partol := arg_partol a;
       arg_maxit := arg_maxit a;  arg_stpb := arg_stpb a;  arg_stpd := arg_stpd a;
       arg_sclb := arg_sclb a;  arg_scld := arg_scld a;  arg_work := arg_work a;
       arg_iwork := arg_iwork a |}.

Definition with_wd (a : Args) (v : option weight) : Args :=
    {| arg_f := arg_f a;  arg_beta0 := arg_beta0 a;  arg_y := arg_y a;
       arg_x := arg_x a;  arg_we := arg_we a;  arg_wd := v;
       arg_fjacb := arg_fjacb a;  arg_fjacd := arg_fjacd a;  arg_ifixb := arg_ifixb a;
       arg_ifixx := arg_ifixx a;  arg_delta0 := arg_delta0 a;  arg_lower := arg_lower a;
       arg_upper := arg_upper a;  arg_job := arg_job a;  arg_iprint := arg_iprint a;
       arg_rptfile := arg_rptfile a;  arg_errfile := arg_errfile a;  arg_ndigit := arg_ndigit a;
       arg_taufac := arg_taufac a;  arg_sstol := arg_sstol a;  arg_partol := arg_partol a;
       arg_maxit := arg_maxit a;  arg_stpb := arg_stpb a;  arg_stpd := arg_stpd a;
       arg_sclb := arg_sclb a;  arg_scld := arg_scld a;  arg_work := arg_work a;
       arg_iwork := arg_iwork a |}.

(** [odr(f, beta0, y, x)]: every keyword argument at its default. *)
Definition defaults (a : Args) : Prop :=
  arg_we a = None ∧ arg_wd a = None
  ∧ arg_fjacb a = None ∧ arg_fjacd a = None
  ∧ arg_ifixb a = None ∧ arg_ifixx a = None ∧ arg_delta0 a = None
  ∧ arg_lower a = None ∧ arg_upper a = None
  ∧ arg_job a = 0%Z
  ∧ arg_stpb a = None ∧ arg_stpd a = None
  ∧ arg_sclb a = None ∧ arg_scld a = None
  ∧ arg_work a = None ∧ arg_iwork a = None.

(** The classes of status codes that [_interpret_info] tells apart:
    0 for [info <= 0], the code itself for 1 to 4, 5 for [info >= 5]. *)
Definition info_class (info : Z) : Z := Z.max 0 (Z.min info 5).

(** The locals of a restart that takes the buffers [work] and [iwork]
    back: those of the first call, with the restart flag set. *)
Definition restarted (l : Locals) (work : ndarray float64)
    (iwork : ndarray Z) : Locals :=
  {| l_flags := {| is_odr := is_odr (l_flags l);
                   has_jac := has_jac (l_flags l);
                   has_delta0 := has_delta0 (l_flags l);
                   is_restart := true |};
     l_m := l_m l;  l_nq := l_nq l;  l_n := l_n l;  l_npar := l_npar l;
     l_beta := l_beta l;  l_delta := l_delta l;
     l_ldifx := l_ldifx l;  l_ifixx := l_ifixx l;
     l_ldstpd := l_ldstpd l;  l_stpd := l_stpd l;
     l_ldscld := l_ldscld l;  l_scld := l_scld l;
     l_ldwe := l_ldwe l;  l_ld2we := l_ld2we l;  l_we := l_we l;
     l_ldwd := l_ldwd l;  l_ld2wd := l_ld2wd l;  l_wd := l_wd l;
     l_fjacb := l_fjacb l;  l_fjacd := l_fjacd l;
     l_lwork := l_lwork l;  l_liwork := l_liwork l;
     l_work := work;  l_iwork := iwork |}.


(** * Properties *)

(** ** The exception monad *)

Lemma bind_inr_inv {A B} (c : result A) (k : A → result B) (b : B) :
  c ≫= k = inr b → ∃ a, c = inr a ∧ k a = inr b.
Proof. destruct c as [e|a]; [discriminate|]. intros H. by exists a. Qed.

Lemma bind_inl {A B} (c : result A) (k : A → result B) (e : Error) :
  c = inl e → c ≫= k = inl e.
Proof. by intros ->. Qed.

Lemma bind_inr {A B} (c : result A) (k : A → result B) (a : A) :
  c = inr a → c ≫= k = k a.
Proof. by intros ->. Qed.

Lemma raise_if_inr (cond : bool) (e : Error) (u : unit) :
  raise_if cond e = inr u ↔ cond = false.
Proof. destruct cond, u; compute; split; congruence. Qed.


(** Case analysis on every [decide] of the goal. *)
Ltac decide_all :=
  repeat match goal with
         | |- context [decide ?P] => destruct (decide P)
         end.

(** Splits a successful chain of binds into its successful steps. *)
Ltac inv_bind H :=
  repeat
    match type of H with
    | mbind _ _ = inr _ =>
        let v := fresh "v" in
        let Hv := fresh "Hv" in
        apply bind_inr_inv in H as (v & Hv & H)
    | (let '(_, _) := ?p in _) = inr _ => destruct p eqn:?
    end.

(** ** Job decoding *)

Lemma pow10_pos (k : Z) : (1 ≤ k → 0 < 10 ^ (k - 1))%Z.
Proof. intros Hk. apply Z.pow_pos_nonneg; lia. Qed.

Lemma get_digit_spec (number k : Z) :
  (1 ≤ k)%Z → _get_digit number k = inr (spec_digit number k).
Proof.
  intros Hk. pose proof (pow10_pos k Hk) as Hpos.
  unfold _get_digit, floordiv, modulo, spec_digit.
  destruct (Z.eqb_spec (10 ^ (k - 1)) 0) as [Hz|_]; [lia|].
  reflexivity.
Qed.

Lemma interpret_job_spec (job : Z) :
  interpret_job job =
    inr {| is_odr := (spec_digit job 1 <? 2)%Z;
           has_jac := (spec_digit job 2 >? 1)%Z;
           has_delta0 := (spec_digit job 4 >? 0)%Z;
           is_restart := (spec_digit job 5 >? 0)%Z |}.
Proof.
  unfold interpret_job.
  rewrite !get_digit_spec by lia. reflexivity.
Qed.

Lemma digits_upto_decimal (fuel : nat) (n : Z) : decimal (digits_upto fuel n).
Proof.
  revert n. induction fuel as [|fuel IH]; intros n; simpl.
  - constructor.
  - destruct (Z.eqb_spec n 0); constructor; [|apply IH].
    apply Z.mod_pos_bound. lia.
Qed.

Lemma of_digits_upto (fuel : nat) (n : Z) :
  (0 ≤ n ≤ Z.of_nat fuel)%Z → of_digits (digits_upto fuel n) = n.
Proof.
  revert n. induction fuel as [|fuel IH]; intros n Hn; simpl.
  - lia.
  - destruct (Z.eqb_spec n 0) as [->|Hnz]; [done|].
    simpl. rewrite IH.
    + pose proof (Z.div_mod n 10). lia.
    + split; [apply Z.div_pos; lia|].
      assert (n / 10 < n)%Z by (apply Z.div_lt; lia). lia.
Qed.

Lemma spec_digit_of_digits (ds : list Z) (k : nat) :
  decimal ds →
  spec_digit (of_digits ds) (Z.of_nat (S k)) = default 0%Z (ds !! k).
Proof.
  unfold spec_digit. intros Hds. revert k.
  induction Hds as [|d ds Hd _ IH]; intros k.
  - simpl. rewrite Z.div_0_l by (pose proof (pow10_pos (Z.of_nat (S k))); lia).
    done.
  - destruct k as [|k].
    + change (Z.of_nat 1 - 1)%Z with 0%Z.
      change (default 0%Z ((d :: ds) !! 0)) with d.
      cbn [of_digits].
      rewrite Z.pow_0_r, Z.div_1_r.
      rewrite (Z.mul_comm 10), Z.mod_add by lia.
      apply Z.mod_small; lia.
    + change ((d :: ds) !! S k) with (ds !! k).
      cbn [of_digits].
      rewrite <- IH.
      replace (Z.of_nat (S (S k)) - 1)%Z with (1 + (Z.of_nat (S k) - 1))%Z by lia.
      rewrite Z.pow_add_r by lia.
      rewrite Z.pow_1_r.
      rewrite <- Z.div_div by (pose proof (pow10_pos (Z.of_nat (S k))); lia).
      f_equal. f_equal.
      rewrite Z.add_comm, (Z.mul_comm 10), Z.div_add_l by lia.
      rewrite (Z.div_small d 10) by lia. lia.
Qed.

(** C5.  For a non-negative job code the four mode flags are the thresholds
    [digit 1 < 2], [digit 2 > 1], [digit 4 > 0], [digit 5 > 0] on
    digit(code, k) = (code / 10^(k-1)) mod 10, which is the k-th decimal digit
    of the code counted from the right; and [interpret_job] raises for no
    integer at all. *)
Theorem job_flags_are_digit_thresholds (job : Z) :
  (0 ≤ job)%Z →
  interpret_job job =
    inr {| is_odr := (spec_digit job 1 <? 2)%Z;
           has_jac := (spec_digit job 2 >? 1)%Z;
           has_delta0 := (spec_digit job 4 >? 0)%Z;
           is_restart := (spec_digit job 5 >? 0)%Z |}
  ∧ (∀ k : Z, (1 ≤ k)%Z → _get_digit job k = inr (spec_digit job k))
  ∧ decimal (to_digits job)
  ∧ of_digits (to_digits job) = job
  ∧ (∀ k : nat,
       spec_digit job (Z.of_nat (S k)) = default 0%Z (to_digits job !! k))
  ∧ (∀ code : Z, ∃ flags, interpret_job code = inr flags).
Proof.
  intros Hjob.
  assert (Hof : of_digits (to_digits job) = job).
  { unfold to_digits. apply of_digits_upto. lia. }
  assert (Hdec : decimal (to_digits job)) by apply digits_upto_decimal.
  split_and!.
  - apply interpret_job_spec.
  - intros k Hk. by apply get_digit_spec.
  - exact Hdec.
  - exact Hof.
  - intros k. rewrite <- Hof at 1. by apply spec_digit_of_digits.
  - intros code. eexists. apply interpret_job_spec.
Qed.

Lemma job_flags_are_digit_thresholds_witness :
  (0 ≤ 11020)%Z
  ∧ interpret_job 11020 =
      inr {| is_odr := true; has_jac := true; has_delta0 := true;
             is_restart := true |}
  ∧ to_digits 11020 = [0; 2; 0; 1; 1]%Z.
Proof.
  assert (Hjob : (0 ≤ 11020)%Z) by discriminate.
  destruct (job_flags_are_digit_thresholds 11020 Hjob) as (Hflags & _).
  split_and!; [exact Hjob | exact Hflags | reflexivity].
Defined.

(** ** Validation as a whole *)

Lemma validate_inv wsd (a : Args) (l : Locals) :
  validate wsd a = inr l → validated wsd a l.
Proof.
  unfold validate. intros H. inv_bind H.
  repeat match goal with u : unit |- _ => destruct u end.
  injection H as <-. by constructor.
Qed.

Lemma validated_validate wsd (a : Args) (l : Locals) :
  validated wsd a l → validate wsd a = inr l.
Proof.
  intros []. unfold validate.
  repeat match goal with
         | Hs : ?c = inr _ |- context [?c] => rewrite Hs; clear Hs; cbn [mbind result_bind]
         | Hs : ?c = (_, _) |- context [?c] => rewrite Hs; clear Hs
         end.
  by destruct l.
Qed.

(** ** Dimension inference *)

(** The shapes that the dimension checks turn down. *)
Lemma check_dimensions_cases (x y beta0 : ndarray float64) :
  (spec_bad_dimensions x y beta0
   ∧ ∃ msg, check_dimensions x y beta0 = inl (ValueError msg)
            ∧ msg ∈ [XRank; YRank; LastDimension; Beta0Rank])
  ∨ (¬ spec_bad_dimensions x y beta0
     ∧ check_dimensions x y beta0
       = inr (spec_dimensions x y beta0, beta0)
     ∧ np.size beta0 = default 0 (shape beta0 !! 0)).
Proof.
  destruct x as [[|x0 [|x1 [|x2 xs]]] xd], y as [[|y0 [|y1 [|y2 ys]]] yd],
    beta0 as [[|b0 [|b1 bs]] bd];
    cbv [check_dimensions check_x_y check_beta0 np.ndim np.shape_at
         np.shape_last np.copy np.size shape spec_bad_dimensions
         spec_dimensions];
    simpl;
    decide_all; simpl;
    first
      [ left; split; [|eexists; split; [reflexivity | repeat constructor]];
        intuition (congruence || lia)
      | right; rewrite ?Nat.mul_1_r;
        split_and!; [intuition (congruence || lia) | reflexivity | reflexivity] ].
Qed.

Lemma shape_mismatch_messages (msg : Message) :
  msg ∈ [XRank; YRank; LastDimension; Beta0Rank] →
  error_kind (ValueError msg) = Some ShapeMismatch.
Proof.
  intros H. repeat (apply elem_of_cons in H as [->|H]; [reflexivity|]).
  by apply elem_of_nil in H.
Qed.

(** A call that gets as far as the routine has passed dimension inference
    and carries the inferred dimensions. *)
Lemma validated_dimensions wsd (a : Args) (l : Locals) :
  validate wsd a = inr l →
  ¬ spec_bad_dimensions (arg_x a) (arg_y a) (arg_beta0 a)
  ∧ (l_m l, l_nq l, l_n l, l_npar l)
    = spec_dimensions (arg_x a) (arg_y a) (arg_beta0 a).
Proof.
  intros Hl. apply validate_inv in Hl as [].
  destruct (check_dimensions_cases (arg_x a) (arg_y a) (arg_beta0 a))
    as [(Hbad & msg & Hmsg & Hin) | (Hok & Hdims & Hsize)]; [congruence|].
  split; [done | congruence].
Qed.

(** C3.  Dimension inference fails, with a ShapeMismatch error, exactly when
    [x] or [y] has a rank other than 1 or 2, their trailing axis lengths
    disagree, or [beta0] is not of rank 1; otherwise [m] is 1 for a rank-1
    [x] and [x.shape[0]] else, [nq] likewise from [y], [n] is the common
    trailing axis length and [npar] the length of [beta0].  A call with such
    inputs stops there, and a call that gets as far as the routine carries
    these dimensions. *)
Theorem dimensions_inferred_or_shape_mismatch (x y beta0 : ndarray float64) :
  ((∃ e, check_dimensions x y beta0 = inl e) ↔ spec_bad_dimensions x y beta0)
  ∧ (∀ e, check_dimensions x y beta0 = inl e →
          error_kind e = Some ShapeMismatch)
  ∧ (¬ spec_bad_dimensions x y beta0 →
     check_dimensions x y beta0 = inr (spec_dimensions x y beta0, beta0)
     ∧ np.size beta0 = (spec_dimensions x y beta0).2)
  ∧ (∀ wsd (a : Args),
       arg_x a = x → arg_y a = y → arg_beta0 a = beta0 →
       (spec_bad_dimensions x y beta0 →
        ∃ e, validate wsd a = inl e ∧ error_kind e = Some ShapeMismatch)
       ∧ (∀ l, validate wsd a = inr l →
               ¬ spec_bad_dimensions x y beta0
               ∧ (l_m l, l_nq l, l_n l, l_npar l) = spec_dimensions x y beta0)).
Proof.
  destruct (check_dimensions_cases x y beta0)
    as [(Hbad & msg & Hmsg & Hin) | (Hok & Hdims & Hsize)].
  - split_and!.
    + split; [done | eauto].
    + intros e He. rewrite Hmsg in He. injection He as <-.
      by apply shape_mismatch_messages.
    + done.
    + intros wsd a <- <- <-. split.
      * intros _. exists (ValueError msg). split.
        -- unfold validate. rewrite interpret_job_spec.
           cbn [mbind result_bind]. by rewrite Hmsg.
        -- by apply shape_mismatch_messages.
      * intros l Hl. apply validate_inv in Hl as [].
        congruence.
  - split_and!.
    + split; [|done]. intros [e He]. congruence.
    + intros e He. congruence.
    + done.
    + intros wsd a <- <- <-. split; [done|].
      intros l Hl. apply validate_inv in Hl as [].
      split; [done|]. congruence.
Qed.

Lemma spec_dimensions_positive (x y beta0 : ndarray float64) :
  ¬ spec_bad_dimensions x y beta0 →
  let '(m, nq, n, npar) := spec_dimensions x y beta0 in
  (1 ≤ n ∧ 1 ≤ m ∧ 1 ≤ npar ∧ 1 ≤ nq)
  ↔ Forall (λ d, 1 ≤ d) (shape x ++ shape y ++ shape beta0).
Proof.
  destruct x as [[|x0 [|x1 [|x2 xs]]] xd], y as [[|y0 [|y1 [|y2 ys]]] yd],
    beta0 as [[|b0 [|b1 bs]] bd];
    cbv [np.ndim shape spec_bad_dimensions spec_dimensions]; simpl;
    intros Hok;
    try (exfalso; apply Hok; intuition (congruence || lia); fail);
    assert (Hlast : ∀ u v : nat, ¬ Some u ≠ Some v → u = v)
      by (intros u v Huv; destruct (decide (u = v)); [done|];
          exfalso; apply Huv; congruence);
    rewrite !list.Forall_cons, list.Forall_nil.
  - assert (x0 = y0) by (apply Hlast; tauto). lia.
  - assert (x0 = y1) by (apply Hlast; tauto). lia.
  - assert (x1 = y0) by (apply Hlast; tauto). lia.
  - assert (x1 = y1) by (apply Hlast; tauto). lia.
Qed.

(** C9, as the driver has it.  The dimensions handed to the routine are the
    axis lengths of the inputs ([m = 1] for a rank-1 [x], [nq = 1] for a
    rank-1 [y]); they are all at least 1 exactly when no axis of [x], [y] or
    [beta0] is empty. *)
Theorem dimensions_positive_iff_axes_nonempty wsd (a : Args) (l : Locals) :
  validate wsd a = inr l →
  let c := odr_call a l in
  (c_m c, c_nq c, c_n c, c_npar c)
  = spec_dimensions (arg_x a) (arg_y a) (arg_beta0 a)
  ∧ ((1 ≤ c_n c ∧ 1 ≤ c_m c ∧ 1 ≤ c_npar c ∧ 1 ≤ c_nq c)
     ↔ Forall (λ d, 1 ≤ d)
         (shape (arg_x a) ++ shape (arg_y a) ++ shape (arg_beta0 a)))
  ∧ (np.ndim (arg_x a) = 1 → c_m c = 1)
  ∧ (np.ndim (arg_y a) = 1 → c_nq c = 1).
Proof.
  intros Hl. cbn [odr_call c_m c_nq c_n c_npar].
  destruct (validated_dimensions wsd a l Hl) as (Hok & Hdims).
  pose proof (spec_dimensions_positive _ _ _ Hok) as Hpos.
  rewrite <- Hdims in Hpos.
  split_and!; [done | done | |].
  - intros Hx. unfold spec_dimensions in Hdims.
    destruct (decide (np.ndim (arg_x a) = 1)); [congruence | done].
  - intros Hy. unfold spec_dimensions in Hdims.
    destruct (decide (np.ndim (arg_y a) = 1)); [congruence | done].
Qed.

(** C9, as the specification states it, fails: empty [x] and [y] pass every
    check, and the routine is called with [n = 0]. *)
Lemma dimensions_at_least_one_counterexample :
  ∃ l, Sample.validate
         (Sample.plain Sample.beta2 (Sample.vec []) (Sample.vec [])) = inr l
       ∧ ¬ (1 ≤ l_n l ∧ 1 ≤ l_m l ∧ 1 ≤ l_npar l ∧ 1 ≤ l_nq l).
Proof.
  eexists. split; [vm_compute; reflexivity|].
  cbn [l_n]. lia.
Qed.

Lemma dimensions_positive_iff_axes_nonempty_witness :
  ∃ l, Sample.validate (Sample.plain Sample.beta2 Sample.y3 Sample.x3) = inr l
       ∧ (l_m l, l_nq l, l_n l, l_npar l) = (1, 1, 3, 2)
       ∧ 1 ≤ l_n l ∧ 1 ≤ l_m l ∧ 1 ≤ l_npar l ∧ 1 ≤ l_nq l.
Proof.
  assert (∃ l, Sample.validate (Sample.plain Sample.beta2 Sample.y3 Sample.x3)
               = inr l) as [l Hl]
    by (eexists; vm_compute; reflexivity).
  exists l. split; [exact Hl|].
  destruct (dimensions_positive_iff_axes_nonempty Sample.workspace_dimensions _ l Hl)
    as (Hd & Hpos & _).
  cbn [odr_call c_m c_nq c_n c_npar] in Hd, Hpos.
  split; [rewrite Hd; reflexivity|].
  apply Hpos. vm_compute. repeat constructor.
Defined.

(** ** The result *)

Lemma reshape_inv {A} (v : list A) (shp : list nat) (r : ndarray A) :
  np.reshape v shp = inr r → r = NDArray shp v.
Proof.
  unfold np.reshape. destruct (decide _); [|discriminate].
  by intros [= <-].
Qed.

Lemma assemble_inv diwinf dwinf (a : Args) (l : Locals) (out : SolverOut)
    (r : OdrResult.t) :
  assemble diwinf dwinf a l out = inr r →
  OdrResult.info r = out_info out
  ∧ OdrResult.success r = (out_info out <? 4)%Z
  ∧ OdrResult.stopreason r = _interpret_info (out_info out)
  ∧ OdrResult.delta r = np.overwritten (l_delta l) (out_delta out)
  ∧ OdrResult.xplus r = np.add (arg_x a) (OdrResult.delta r)
  ∧ OdrResult.yest r = np.add (arg_y a) (OdrResult.eps r)
  ∧ shape (OdrResult.eps r) = shape (arg_y a).
Proof.
  unfold assemble. cbv zeta. intros H. inv_bind H.
  injection H as <-. cbn.
  match goal with
  | Hr : np.reshape _ (shape (arg_y a)) = inr _ |- _ =>
      apply reshape_inv in Hr as ->
  end.
  by split_and!.
Qed.

(** Whether [assemble] raises does not depend on the status code. *)
Lemma assemble_error_ignores_info diwinf dwinf (a : Args) (l : Locals)
    (out : SolverOut) (code : Z) (e : Error) :
  assemble diwinf dwinf a l out = inl e →
  assemble diwinf dwinf a l
    {| out_info := code; out_beta := out_beta out; out_delta := out_delta out;
       out_work := out_work out; out_iwork := out_iwork out |} = inl e.
Proof.
  unfold assemble. cbv zeta.
  cbn [out_info out_beta out_delta out_work out_iwork].
  repeat match goal with
         | |- context [mbind _ ?c] =>
             destruct c; cbn [mbind result_bind]; [done|]
         end.
  discriminate.
Qed.

Lemma odr_inv wsd diwinf dwinf _odr (a : Args) (r : OdrResult.t) :
  odr wsd diwinf dwinf _odr a = inr r →
  ∃ l, validate wsd a = inr l
       ∧ assemble diwinf dwinf a l (_odr (odr_call a l)) = inr r.
Proof. unfold odr. intros H. by apply bind_inr_inv in H. Qed.

(** C7.  In a returned result the success flag is true exactly when the
    status code of the routine is below 4, the stop reason is read off the
    fixed table (1, 2, 3, 4, and one message for every code from 5 on), and
    the code itself is a field of the result: no value of it makes this layer
    raise. *)
Theorem status_code_classified wsd diwinf dwinf _odr (a : Args)
    (r : OdrResult.t) :
  odr wsd diwinf dwinf _odr a = inr r →
  (∃ l, validate wsd a = inr l
        ∧ OdrResult.info r = out_info (_odr (odr_call a l)))
  ∧ (OdrResult.success r = true ↔ (OdrResult.info r < 4)%Z)
  ∧ OdrResult.stopreason r = _interpret_info (OdrResult.info r)
  ∧ _interpret_info 1 = "Sum of squares convergence."%string
  ∧ _interpret_info 2 = "Parameter convergence."%string
  ∧ _interpret_info 3 = "Sum of squares and parameter convergence."%string
  ∧ _interpret_info 4 = "Iteration limit reached."%string
  ∧ (∀ code, (5 ≤ code)%Z →
       _interpret_info code =
       "Questionable results or fatal errors detected. See report and error message."%string)
  ∧ (∀ l out code e,
       assemble diwinf dwinf a l out = inl e →
       assemble diwinf dwinf a l
         {| out_info := code; out_beta := out_beta out;
            out_delta := out_delta out; out_work := out_work out;
            out_iwork := out_iwork out |} = inl e).
Proof.
  intros H. apply odr_inv in H as (l & Hl & Hr).
  apply assemble_inv in Hr as (Hinfo & Hsucc & Hstop & _).
  split_and!; try reflexivity.
  - exists l. by split.
  - rewrite Hsucc, Hinfo. apply Z.ltb_lt.
  - by rewrite Hstop, Hinfo.
  - intros code Hcode. unfold _interpret_info.
    repeat match goal with
           | |- context [(code =? ?k)%Z] =>
               destruct (Z.eqb_spec code k); [lia|]
           end.
    destruct (Z.geb_spec code 5); [done | lia].
  - intros. by apply assemble_error_ignores_info.
Qed.

Lemma status_code_classified_witness :
  ∃ r, Sample.odr (Sample.plain Sample.beta2 Sample.y3 Sample.x3) = inr r
       ∧ OdrResult.info r = 1%Z
       ∧ OdrResult.success r = true
       ∧ OdrResult.stopreason r = "Sum of squares convergence."%string.
Proof.
  assert (∃ r, Sample.odr (Sample.plain Sample.beta2 Sample.y3 Sample.x3)
               = inr r ∧ OdrResult.info r = 1%Z) as (r & Hr & Hinfo)
    by (eexists; split; vm_compute; reflexivity).
  exists r. split; [exact Hr|]. split; [exact Hinfo|].
  destruct (status_code_classified Sample.workspace_dimensions Sample.diwinf
              Sample.dwinf Sample._odr _ r Hr) as (_ & Hsucc & Hstop & _).
  split.
  - apply Hsucc. rewrite Hinfo. reflexivity.
  - rewrite Hstop, Hinfo. reflexivity.
Defined.

Lemma check_delta0_shape (flag : bool) (delta0 : option (ndarray float64))
    (x d : ndarray float64) :
  check_delta0 flag delta0 x = inr d → shape d = shape x.
Proof.
  unfold check_delta0.
  destruct flag, delta0 as [d0|]; try discriminate.
  - intros H. apply bind_inr_inv in H as (u & Hu & H).
    apply raise_if_inr, bool_decide_eq_false in Hu.
    injection H as <-. unfold np.copy.
    destruct (decide (shape d0 = shape x)); [done | contradiction].
  - by intros [= <-].
Qed.

(** C10.  In a returned result [xplus] is [x + delta] and [yest] is
    [y + eps], entry by entry, for the [delta] and [eps] of that result,
    which have the shapes of [x] and of [y]. *)
Theorem adjusted_fields_are_sums wsd diwinf dwinf _odr (a : Args)
    (r : OdrResult.t) :
  odr wsd diwinf dwinf _odr a = inr r →
  OdrResult.xplus r = np.add (arg_x a) (OdrResult.delta r)
  ∧ OdrResult.yest r = np.add (arg_y a) (OdrResult.eps r)
  ∧ shape (OdrResult.delta r) = shape (arg_x a)
  ∧ shape (OdrResult.eps r) = shape (arg_y a)
  ∧ shape (OdrResult.xplus r) = shape (arg_x a)
  ∧ shape (OdrResult.yest r) = shape (arg_y a)
  ∧ (∀ i xi di,
       data (arg_x a) !! i = Some xi →
       data (OdrResult.delta r) !! i = Some di →
       data (OdrResult.xplus r) !! i = Some (fadd xi di))
  ∧ (∀ i yi ei,
       data (arg_y a) !! i = Some yi →
       data (OdrResult.eps r) !! i = Some ei →
       data (OdrResult.yest r) !! i = Some (fadd yi ei)).
Proof.
  intros H. apply odr_inv in H as (l & Hl & Hr).
  apply validate_inv in Hl as [].
  apply assemble_inv in Hr as (_ & _ & _ & Hdelta & Hxplus & Hyest & Heps).
  split_and!; try done.
  - rewrite Hdelta. cbn [np.overwritten shape].
    by eapply check_delta0_shape.
  - by rewrite Hxplus.
  - by rewrite Hyest.
  - intros i xi di Hxi Hdi. rewrite Hxplus. cbn [np.add data].
    rewrite lookup_zip_with, Hxi, Hdi. reflexivity.
  - intros i yi ei Hyi Hei. rewrite Hyest. cbn [np.add data].
    rewrite lookup_zip_with, Hyi, Hei. reflexivity.
Qed.

Lemma adjusted_fields_are_sums_witness :
  ∃ r, Sample.odr (Sample.plain Sample.beta2 Sample.y3 Sample.x3) = inr r
       ∧ OdrResult.delta r = Sample.vec [0.5; 0.5; 0.5]%float
       ∧ OdrResult.eps r = Sample.vec [0.25; 0.25; 0.25]%float
       ∧ OdrResult.xplus r = Sample.vec [1.5; 2.5; 3.5]%float
       ∧ OdrResult.yest r = Sample.vec [2.25; 4.25; 6.25]%float.
Proof.
  assert (∃ r, Sample.odr (Sample.plain Sample.beta2 Sample.y3 Sample.x3)
               = inr r
               ∧ OdrResult.delta r = Sample.vec [0.5; 0.5; 0.5]%float
               ∧ OdrResult.eps r = Sample.vec [0.25; 0.25; 0.25]%float)
    as (r & Hr & Hdelta & Heps)
    by (eexists; split_and!; vm_compute; reflexivity).
  exists r. split_and!; [exact Hr | exact Hdelta | exact Heps | |].
  - destruct (adjusted_fields_are_sums Sample.workspace_dimensions
                Sample.diwinf Sample.dwinf Sample._odr _ r Hr) as (Hx & _).
    rewrite Hx, Hdelta. vm_compute. reflexivity.
  - destruct (adjusted_fields_are_sums Sample.workspace_dimensions
                Sample.diwinf Sample.dwinf Sample._odr _ r Hr) as (_ & Hy & _).
    rewrite Hy, Heps. vm_compute. reflexivity.
Defined.

(** ** Job-gated arguments *)

Lemma validated_flags wsd (a : Args) (l : Locals) :
  validated wsd a l →
  l_flags l =
    {| is_odr := (spec_digit (arg_job a) 1 <? 2)%Z;
       has_jac := (spec_digit (arg_job a) 2 >? 1)%Z;
       has_delta0 := (spec_digit (arg_job a) 4 >? 0)%Z;
       is_restart := (spec_digit (arg_job a) 5 >? 0)%Z |}.
Proof.
  intros []. rewrite interpret_job_spec in v_job0. congruence.
Qed.

Lemma check_work_fresh (lwork liwork : nat) :
  check_work false None None lwork liwork
  = inr (NDArray [lwork] (replicate lwork 0%float),
         NDArray [liwork] (replicate liwork 0%Z)).
Proof.
  unfold check_work, np.zeros, np.full. cbn [foldr].
  by rewrite !Nat.mul_1_r.
Qed.

Lemma check_work_restart (w : ndarray float64) (iw : ndarray Z)
    (lwork liwork : nat) :
  check_work true (Some w) (Some iw) lwork liwork
  = if decide (np.size w = lwork) then
      if decide (np.size iw = liwork) then inr (w, iw)
      else inl (ValueError IworkSize)
    else inl (ValueError WorkSize).
Proof.
  unfold check_work, raise_if.
  destruct (decide (np.size w = lwork)), (decide (np.size iw = liwork));
    rewrite ?bool_decide_eq_true_2, ?bool_decide_eq_false_2 by tauto;
    try reflexivity.
  all: cbn [mbind result_bind raise].
  all: rewrite ?bool_decide_eq_true_2, ?bool_decide_eq_false_2 by tauto;
    reflexivity.
Qed.

(** C2.  The work arrays are accepted in two cases only: no restart and
    neither array given, when both are allocated with zeros at the lengths
    that [workspace_dimensions] returns; or a restart with both arrays given
    at exactly those lengths.  A restart array of another length raises a
    RestartSizeMismatch error, every other combination an
    InconsistentJobArgument error. *)
Theorem work_arrays_checked wsd (a : Args) :
  (∀ (flag : bool) (lwork liwork : nat),
     let outcome := check_work flag (arg_work a) (arg_iwork a) lwork liwork in
     (flag = false → arg_work a = None → arg_iwork a = None →
      outcome = inr (NDArray [lwork] (replicate lwork 0%float),
                     NDArray [liwork] (replicate liwork 0%Z)))
     ∧ (∀ w iw, flag = true → arg_work a = Some w → arg_iwork a = Some iw →
          (np.size w ≠ lwork → outcome = inl (ValueError WorkSize))
          ∧ (np.size w = lwork → np.size iw ≠ liwork →
             outcome = inl (ValueError IworkSize))
          ∧ (np.size w = lwork → np.size iw = liwork → outcome = inr (w, iw)))
     ∧ (¬ (flag = false ∧ arg_work a = None ∧ arg_iwork a = None) →
        ¬ (flag = true ∧ is_Some (arg_work a) ∧ is_Some (arg_iwork a)) →
        outcome = inl (ValueError WorkJob)))
  ∧ error_kind (ValueError WorkJob) = Some InconsistentJobArgument
  ∧ error_kind (ValueError WorkSize) = Some RestartSizeMismatch
  ∧ error_kind (ValueError IworkSize) = Some RestartSizeMismatch
  ∧ (∀ l, validate wsd a = inr l →
       let restart := (spec_digit (arg_job a) 5 >? 0)%Z in
       let lengths :=
         wsd (l_n l) (l_m l) (l_npar l) (l_nq l) (is_odr (l_flags l)) in
       (restart = false ∧ arg_work a = None ∧ arg_iwork a = None
        ∧ l_work l = NDArray [lengths.1] (replicate lengths.1 0%float)
        ∧ l_iwork l = NDArray [lengths.2] (replicate lengths.2 0%Z))
       ∨ (restart = true
          ∧ arg_work a = Some (l_work l) ∧ arg_iwork a = Some (l_iwork l)
          ∧ np.size (l_work l) = lengths.1
          ∧ np.size (l_iwork l) = lengths.2)).
Proof.
  split_and!; try reflexivity.
  - intros flag lwork liwork outcome. subst outcome. split_and!.
    + intros -> -> ->. apply check_work_fresh.
    + intros w iw -> -> ->. rewrite check_work_restart.
      destruct (decide (np.size w = lwork)), (decide (np.size iw = liwork));
        split_and!; intros; done.
    + intros Hfresh Hrestart.
      destruct flag, (arg_work a) as [w|], (arg_iwork a) as [iw|];
        try reflexivity.
      * exfalso. apply Hrestart. split_and!; eauto.
      * exfalso. by apply Hfresh.
  - intros l Hl restart lengths.
    apply validate_inv in Hl as Hv.
    pose proof (validated_flags _ _ _ Hv) as Hflags.
    destruct Hv.
    assert (Hrestart : is_restart (l_flags l) = restart)
      by (rewrite Hflags; reflexivity).
    subst lengths. rewrite v_lengths0. cbn [fst snd].
    rewrite Hrestart in v_work0.
    destruct restart, (arg_work a) as [w|], (arg_iwork a) as [iw|];
      try discriminate.
    + right. rewrite check_work_restart in v_work0.
      destruct (decide (np.size w = l_lwork l)),
        (decide (np.size iw = l_liwork l)); try discriminate.
      injection v_work0 as <- <-. by split_and!.
    + left. rewrite check_work_fresh in v_work0.
      injection v_work0 as <- <-. by split_and!.
Qed.

Lemma work_arrays_checked_witness :
  ∃ l, Sample.validate (Sample.plain Sample.beta2 Sample.y3 Sample.x3) = inr l
       ∧ l_work l = NDArray [110] (replicate 110 0%float)
       ∧ l_iwork l = NDArray [27] (replicate 27 0%Z).
Proof.
  assert (∃ l, Sample.validate (Sample.plain Sample.beta2 Sample.y3 Sample.x3)
               = inr l ∧ (l_n l, l_m l, l_npar l, l_nq l) = (3, 1, 2, 1)
               ∧ is_odr (l_flags l) = true)
    as (l & Hl & Hdims & Hodr)
    by (eexists; split_and!; vm_compute; reflexivity).
  exists l. split; [exact Hl|].
  destruct (work_arrays_checked Sample.workspace_dimensions
              (Sample.plain Sample.beta2 Sample.y3 Sample.x3))
    as (_ & _ & _ & _ & Hcall).
  injection Hdims as Hn Hm Hnpar Hnq.
  destruct (Hcall l Hl) as [(_ & _ & _ & Hw & Hiw) | (Hr & _)].
  - rewrite Hw, Hiw, Hn, Hm, Hnpar, Hnq, Hodr. split; reflexivity.
  - discriminate Hr.
Defined.

Lemma check_delta0_supplied (d0 x : ndarray float64) :
  check_delta0 true (Some d0) x
  = if decide (shape d0 = shape x) then inr d0
    else inl (ValueError Delta0Shape).
Proof.
  unfold check_delta0, raise_if, np.copy.
  destruct (decide (shape d0 = shape x)).
  - by rewrite bool_decide_eq_false_2 by tauto.
  - by rewrite bool_decide_eq_true_2 by tauto.
Qed.

(** C4.  [delta0] is accepted exactly when its presence agrees with the
    fourth digit of [job]: with the digit set, an array of the shape of [x]
    is copied as the initial error and an array of another shape raises a
    ShapeMismatch error; with the digit unset and no array the initial error
    is all zeros, in the shape of [x]; the digit set without an array, or an
    array without the digit, raises an InconsistentJobArgument error. *)
Theorem delta0_agrees_with_job wsd (a : Args) :
  let x := arg_x a in
  (∀ flag : bool,
     let outcome := check_delta0 flag (arg_delta0 a) x in
     (∀ d0, flag = true → arg_delta0 a = Some d0 →
        (shape d0 = shape x → outcome = inr d0)
        ∧ (shape d0 ≠ shape x → outcome = inl (ValueError Delta0Shape)))
     ∧ (flag = false → arg_delta0 a = None →
        outcome = inr (NDArray (shape x) (replicate (np.size x) 0%float)))
     ∧ (flag = true → arg_delta0 a = None →
        outcome = inl (ValueError Delta0Job))
     ∧ (flag = false → is_Some (arg_delta0 a) →
        outcome = inl (ValueError Delta0Job)))
  ∧ error_kind (ValueError Delta0Shape) = Some ShapeMismatch
  ∧ error_kind (ValueError Delta0Job) = Some InconsistentJobArgument
  ∧ (∀ l, validate wsd a = inr l →
       let flag := (spec_digit (arg_job a) 4 >? 0)%Z in
       (flag = true ∧ arg_delta0 a = Some (l_delta l)
        ∧ shape (l_delta l) = shape x)
       ∨ (flag = false ∧ arg_delta0 a = None
          ∧ l_delta l = NDArray (shape x) (replicate (np.size x) 0%float))).
Proof.
  intros x. split_and!; try reflexivity.
  - intros flag outcome. subst outcome. split_and!.
    + intros d0 -> ->. rewrite check_delta0_supplied.
      destruct (decide (shape d0 = shape x)); split; intros; done.
    + by intros -> ->.
    + by intros -> ->.
    + by intros -> [d0 ->].
  - intros l Hl flag.
    apply validate_inv in Hl as Hv.
    pose proof (validated_flags _ _ _ Hv) as Hflags.
    destruct Hv.
    assert (Hflag : has_delta0 (l_flags l) = flag)
      by (rewrite Hflags; reflexivity).
    rewrite Hflag in v_delta1.
    destruct flag, (arg_delta0 a) as [d0|]; try discriminate.
    + left. rewrite check_delta0_supplied in v_delta1.
      destruct (decide (shape d0 = shape (arg_x a))); [|discriminate].
      injection v_delta1 as <-. by split_and!.
    + right. injection v_delta1 as <-. by split_and!.
Qed.

Lemma delta0_agrees_with_job_witness :
  ∃ l, Sample.validate (Sample.plain Sample.beta2 Sample.y3 Sample.x3) = inr l
       ∧ l_delta l = Sample.vec [0; 0; 0]%float.
Proof.
  assert (∃ l, Sample.validate (Sample.plain Sample.beta2 Sample.y3 Sample.x3)
               = inr l) as (l & Hl)
    by (eexists; vm_compute; reflexivity).
  exists l. split; [exact Hl|].
  destruct (delta0_agrees_with_job Sample.workspace_dimensions
              (Sample.plain Sample.beta2 Sample.y3 Sample.x3))
    as (_ & _ & _ & Hcall).
  destruct (Hcall l Hl) as [(Hflag & _) | (_ & _ & Hd)].
  - discriminate Hflag.
  - rewrite Hd. reflexivity.
Defined.

(** ** Bounds *)

Lemma SFcompare_Eq_sym (f1 f2 : SpecFloat.spec_float) :
  SpecFloat.SFcompare f1 f2 = Some Eq → SpecFloat.SFcompare f2 f1 = Some Eq.
Proof.
  destruct f1 as [s1| s1 | | s1 m1 e1], f2 as [s2| s2 | | s2 m2 e2];
    cbn [SpecFloat.SFcompare];
    try destruct s1; try destruct s2; try discriminate; try done.
  all: destruct (Z.compare_spec e1 e2) as [->| |]; try discriminate.
  all: rewrite Z.compare_refl.
  all: fold (Pos.compare m1 m2); fold (Pos.compare m2 m1).
  all: destruct (Pos.compare_spec m1 m2) as [->| |]; try discriminate.
  all: by rewrite Pos.compare_refl.
Qed.

(** [a == b] on floats gives both [a >= b] and [a <= b]. *)
Lemma float_eq_ge_le (a b : float64) :
  PrimFloat.eqb a b = true → fge a b = true ∧ fle a b = true.
Proof.
  unfold fge, fle. rewrite FloatAxioms.eqb_spec, !FloatAxioms.leb_spec.
  unfold SpecFloat.SFeqb, SpecFloat.SFleb. intros H.
  destruct (SpecFloat.SFcompare (Prim2SF a) (Prim2SF b)) as [[]|] eqn:Hab;
    try discriminate.
  by rewrite (SFcompare_Eq_sym _ _ Hab).
Qed.

Lemma existsb_zip_with {A B} (f : A → B → bool) (l : list A) (k : list B) :
  existsb id (zip_with f l k) = true
  ↔ ∃ i x y, l !! i = Some x ∧ k !! i = Some y ∧ f x y = true.
Proof.
  rewrite existsb_exists. split.
  - intros (z & Hin & Hz).
    apply list_elem_of_In, list_elem_of_lookup in Hin as (i & Hi).
    apply lookup_zip_with_Some in Hi as (x & y & -> & Hx & Hy).
    by exists i, x, y.
  - intros (i & x & y & Hx & Hy & Hf).
    exists (f x y). split; [|done].
    apply list_elem_of_In, list_elem_of_lookup. exists i.
    apply lookup_zip_with_Some. by exists x, y.
Qed.

Lemma check_lower_supplied (lo beta0 : ndarray float64) :
  check_lower (Some lo) beta0
  = if decide (shape lo = shape beta0) then
      if np.any_ge lo beta0 then inl (ValueError LowerNotLess) else inr tt
    else inl (ValueError LowerShape).
Proof.
  unfold check_lower, raise_if.
  destruct (decide (shape lo = shape beta0)).
  - rewrite bool_decide_eq_false_2 by tauto. cbn [mbind result_bind].
    by destruct (np.any_ge lo beta0).
  - by rewrite bool_decide_eq_true_2 by tauto.
Qed.

Lemma check_upper_supplied (up beta0 : ndarray float64) :
  check_upper (Some up) beta0
  = if decide (shape up = shape beta0) then
      if np.any_le up beta0 then inl (ValueError UpperNotGreater) else inr tt
    else inl (ValueError UpperShape).
Proof.
  unfold check_upper, raise_if.
  destruct (decide (shape up = shape beta0)).
  - rewrite bool_decide_eq_false_2 by tauto. cbn [mbind result_bind].
    by destruct (np.any_le up beta0).
  - by rewrite bool_decide_eq_true_2 by tauto.
Qed.

(** C6.  A supplied [lower] with an entry greater than or equal to the
    entry of [beta0] at the same place, or a supplied [upper] with an entry
    less than or equal to it, raises an InvalidBounds error; a bound equal
    to the initial parameter is such an entry; and a bound whose shape is
    not that of [beta0] is turned down as well, so that no such call gets
    as far as the routine. *)
Theorem bounds_must_be_strict wsd (a : Args) :
  let beta0 := arg_beta0 a in
  let meets (cmp : float64 → float64 → bool) (bound : ndarray float64) :=
    ∃ i v b, data bound !! i = Some v ∧ data beta0 !! i = Some b
             ∧ cmp v b = true in
  (∀ lo, arg_lower a = Some lo →
     (shape lo ≠ shape beta0 →
      check_lower (arg_lower a) beta0 = inl (ValueError LowerShape))
     ∧ (shape lo = shape beta0 → meets fge lo →
        check_lower (arg_lower a) beta0 = inl (ValueError LowerNotLess))
     ∧ (shape lo = shape beta0 → meets PrimFloat.eqb lo →
        check_lower (arg_lower a) beta0 = inl (ValueError LowerNotLess)))
  ∧ (∀ up, arg_upper a = Some up →
     (shape up ≠ shape beta0 →
      check_upper (arg_upper a) beta0 = inl (ValueError UpperShape))
     ∧ (shape up = shape beta0 → meets fle up →
        check_upper (arg_upper a) beta0 = inl (ValueError UpperNotGreater))
     ∧ (shape up = shape beta0 → meets PrimFloat.eqb up →
        check_upper (arg_upper a) beta0 = inl (ValueError UpperNotGreater)))
  ∧ error_kind (ValueError LowerNotLess) = Some InvalidBounds
  ∧ error_kind (ValueError UpperNotGreater) = Some InvalidBounds
  ∧ (∀ l, validate wsd a = inr l →
       (∀ lo, arg_lower a = Some lo →
          shape lo = shape beta0 ∧ ¬ meets fge lo)
       ∧ (∀ up, arg_upper a = Some up →
          shape up = shape beta0 ∧ ¬ meets fle up))
  ∧ (∀ dims lo,
       check_dimensions (arg_x a) (arg_y a) beta0 = inr dims →
       arg_lower a = Some lo → shape lo = shape beta0 → meets fge lo →
       validate wsd a = inl (ValueError LowerNotLess))
  ∧ (∀ dims up,
       check_dimensions (arg_x a) (arg_y a) beta0 = inr dims →
       (∀ lo, arg_lower a = Some lo → shape lo = shape beta0) →
       arg_upper a = Some up → shape up = shape beta0 → meets fle up →
       ∃ e, validate wsd a = inl e ∧ error_kind e = Some InvalidBounds).
Proof.
  intros beta0 meets.
  assert (Hge : ∀ lo, meets fge lo ↔ np.any_ge lo beta0 = true)
    by (intros lo; symmetry; apply existsb_zip_with).
  assert (Hle : ∀ up, meets fle up ↔ np.any_le up beta0 = true)
    by (intros up; symmetry; apply existsb_zip_with).
  assert (Heq : ∀ bound, meets PrimFloat.eqb bound →
                         meets fge bound ∧ meets fle bound).
  { intros bound (i & v & b & Hv & Hb & Hvb).
    apply float_eq_ge_le in Hvb as [? ?].
    split; by exists i, v, b. }
  split_and!; try reflexivity.
  - intros lo ->. rewrite check_lower_supplied. split_and!.
    + intros Hshape. by destruct (decide (shape lo = shape beta0)).
    + intros Hshape Hmeets%Hge.
      destruct (decide (shape lo = shape beta0)); [|done]. by rewrite Hmeets.
    + intros Hshape [Hmeets%Hge _]%Heq.
      destruct (decide (shape lo = shape beta0)); [|done]. by rewrite Hmeets.
  - intros up ->. rewrite check_upper_supplied. split_and!.
    + intros Hshape. by destruct (decide (shape up = shape beta0)).
    + intros Hshape Hmeets%Hle.
      destruct (decide (shape up = shape beta0)); [|done]. by rewrite Hmeets.
    + intros Hshape [_ Hmeets%Hle]%Heq.
      destruct (decide (shape up = shape beta0)); [|done]. by rewrite Hmeets.
  - intros l Hl. apply validate_inv in Hl as []. split.
    + intros lo Hlo. rewrite Hlo, check_lower_supplied in v_lower0.
      fold beta0 in v_lower0.
      destruct (decide (shape lo = shape beta0)); [|discriminate].
      split; [done|]. rewrite Hge.
      by destruct (np.any_ge lo beta0).
    + intros up Hup. rewrite Hup, check_upper_supplied in v_upper0.
      fold beta0 in v_upper0.
      destruct (decide (shape up = shape beta0)); [|discriminate].
      split; [done|]. rewrite Hle.
      by destruct (np.any_le up beta0).
  - intros dims lo Hdims Hlo Hshape Hmeets%Hge.
    unfold validate. rewrite interpret_job_spec. cbn [mbind result_bind].
    fold beta0. rewrite Hdims. cbn [mbind result_bind].
    destruct dims as [[[[m nq] n] npar] beta].
    rewrite Hlo, check_lower_supplied.
    destruct (decide (shape lo = shape beta0)); [|done]. by rewrite Hmeets.
  - intros dims up Hdims Hlower Hup Hshape Hmeets%Hle.
    unfold validate. rewrite interpret_job_spec. cbn [mbind result_bind].
    fold beta0. rewrite Hdims. cbn [mbind result_bind].
    destruct dims as [[[[m nq] n] npar] beta].
    destruct (arg_lower a) as [lo|] eqn:Hlo.
    + rewrite check_lower_supplied.
      destruct (decide (shape lo = shape beta0)) as [_|Hne];
        [|by destruct Hne; apply Hlower].
      destruct (np.any_ge lo beta0).
      * by exists (ValueError LowerNotLess).
      * cbn [mbind result_bind]. rewrite Hup, check_upper_supplied.
        destruct (decide (shape up = shape beta0)); [|done].
        rewrite Hmeets. by exists (ValueError UpperNotGreater).
    + cbn [check_lower mbind result_bind mret result_ret].
      rewrite Hup, check_upper_supplied.
      destruct (decide (shape up = shape beta0)); [|done].
      rewrite Hmeets. by exists (ValueError UpperNotGreater).
Qed.

Lemma bounds_must_be_strict_witness :
  Sample.validate
    (Sample.bounded (Some Sample.beta2) None Sample.beta2 Sample.y3 Sample.x3)
  = inl (ValueError LowerNotLess).
Proof.
  destruct (bounds_must_be_strict Sample.workspace_dimensions
              (Sample.bounded (Some Sample.beta2) None Sample.beta2 Sample.y3
                 Sample.x3)) as (_ & _ & _ & _ & _ & Hlower & _).
  eapply Hlower.
  - vm_compute. reflexivity.
  - reflexivity.
  - reflexivity.
  - exists 0, 1%float, 1%float. split_and!; vm_compute; reflexivity.
Defined.

(** ** Arrays broadcast along [x] *)

Lemma check_x_y_rank2 (x y : ndarray float64) (m nq n : nat) :
  check_x_y x y = inr (m, nq, n) → 1 < m → shape x = [m; n].
Proof.
  destruct x as [[|x0 [|x1 [|x2 xs]]] xd], y as [[|y0 [|y1 [|y2 ys]]] yd];
    cbv [check_x_y np.ndim np.shape_at np.shape_last shape]; simpl;
    decide_all; simpl; try discriminate;
    intros [= <- <- <-] Hm; (lia || reflexivity).
Qed.

(** Row [i] of the tiled array is the vector itself. *)
Lemma tile_rows_lookup {A} (v : ndarray A) (m i j : nat) :
  i < m → j < length (data v) →
  data (np.tile_rows v m) !! (i * length (data v) + j) = data v !! j.
Proof.
  cbn [np.tile_rows data]. revert i.
  induction m as [|m IH]; intros i Hi Hj; [lia|].
  cbn [replicate mjoin list_join].
  destruct i as [|i].
  - by rewrite lookup_app_l.
  - rewrite lookup_app_r by lia.
    replace (S i * length (data v) + j - length (data v))
      with (i * length (data v) + j) by lia.
    apply IH; lia.
Qed.

Lemma check_like_x_cases {A} (msg : Message) (v : ndarray A)
    (x : ndarray float64) (m n : nat) :
  shape x = [m; n] → 1 < m → n ≠ m →
  check_like_x msg (Some v) x m n
  = if decide (shape v = [m; n]) then inr (n, Some v)
    else if decide (shape v = [m]) then inr (1, Some v)
    else if decide (shape v = [n]) then inr (n, Some (np.tile_rows v m))
    else inl (ValueError msg).
Proof.
  intros Hx Hm Hn. unfold check_like_x. rewrite Hx.
  destruct (decide (shape v = [m; n])); [done|].
  destruct (decide (shape v = [m])).
  - by rewrite decide_True by done.
  - rewrite decide_False by tauto.
    destruct (decide (shape v = [n])).
    + by rewrite decide_True by done.
    + by rewrite decide_False by tauto.
Qed.

(** Replacing a vector of shape [(n,)] by its tiled array changes nothing
    in what the check returns. *)
Lemma check_like_x_tiled {A} (msg : Message) (v : ndarray A)
    (x : ndarray float64) (m n : nat) :
  shape x = [m; n] → 1 < m → n ≠ m → shape v = [n] →
  check_like_x msg (Some (np.tile_rows v m)) x m n
  = check_like_x msg (Some v) x m n
  ∧ check_like_x msg (Some v) x m n = inr (n, Some (np.tile_rows v m)).
Proof.
  intros Hx Hm Hn Hv. rewrite !check_like_x_cases by done.
  cbn [np.tile_rows shape]. rewrite Hv.
  rewrite decide_True by done.
  rewrite decide_False by discriminate.
  rewrite decide_False by congruence.
  by rewrite decide_True by done.
Qed.

(** Steps over a check that both sides of an equation run on the same
    arguments. *)
Ltac same_check :=
  match goal with
  | |- mbind _ ?c = mbind _ ?c =>
      destruct c as [?|?]; cbn [mbind result_bind]; [reflexivity|]
  | |- context [match ?p with pair _ _ => _ end] => is_var p; destruct p
  end.

Lemma validate_tiled wsd (a : Args) (m nq n : nat) :
  check_x_y (arg_x a) (arg_y a) = inr (m, nq, n) → 1 < m → n ≠ m →
  (∀ v, arg_ifixx a = Some v → shape v = [n] →
        validate wsd (with_ifixx a (Some (np.tile_rows v m))) = validate wsd a)
  ∧ (∀ v, arg_stpd a = Some v → shape v = [n] →
          validate wsd (with_stpd a (Some (np.tile_rows v m))) = validate wsd a)
  ∧ (∀ v, arg_scld a = Some v → shape v = [n] →
          validate wsd (with_scld a (Some (np.tile_rows v m))) = validate wsd a).
Proof.
  intros Hxy Hm Hn.
  pose proof (check_x_y_rank2 _ _ _ _ _ Hxy Hm) as Hx.
  assert (Hdims : check_dimensions (arg_x a) (arg_y a) (arg_beta0 a)
                  = check_beta0 (arg_beta0 a)
                    ≫= λ '(npar, beta), mret (m, nq, n, npar, beta))
    by (unfold check_dimensions; by rewrite Hxy).
  split_and!; intros v Hv Hshape; unfold validate;
    cbn [with_ifixx with_stpd with_scld arg_f arg_beta0 arg_y arg_x arg_we
         arg_wd arg_fjacb arg_fjacd arg_ifixb arg_ifixx arg_delta0 arg_lower
         arg_upper arg_job arg_iprint arg_rptfile arg_errfile arg_ndigit
         arg_taufac arg_sstol arg_partol arg_maxit arg_stpb arg_stpd arg_sclb
         arg_scld arg_work arg_iwork];
    rewrite Hdims;
    (destruct (check_beta0 (arg_beta0 a)) as [e|[npar beta]];
     cbn [mbind result_bind mret result_ret];
     [by destruct (interpret_job (arg_job a))|]);
    repeat same_check.
  - unfold check_ifixx. rewrite Hv.
    by rewrite (proj1 (check_like_x_tiled IfixxShape v _ m n Hx Hm Hn Hshape)).
  - unfold check_stpd. rewrite Hv.
    by rewrite (proj1 (check_like_x_tiled StpdShape v _ m n Hx Hm Hn Hshape)).
  - unfold check_scld. rewrite Hv.
    by rewrite (proj1 (check_like_x_tiled ScldShape v _ m n Hx Hm Hn Hshape)).
Qed.

Lemma odr_same_validation wsd diwinf dwinf _odr (a a' : Args) :
  arg_x a' = arg_x a → arg_y a' = arg_y a →
  (∀ l, odr_call a' l = odr_call a l) →
  validate wsd a' = validate wsd a →
  odr wsd diwinf dwinf _odr a' = odr wsd diwinf dwinf _odr a.
Proof.
  intros Hx Hy Hcall Hval. unfold odr. rewrite Hval.
  destruct (validate wsd a) as [e|l]; [done|].
  cbn [mbind result_bind]. rewrite Hcall.
  unfold assemble. by rewrite Hx, Hy.
Qed.

(** C8.  For [ifixx], [stpd] and [scld], when [m > 1] and [n ≠ m]: a vector
    of shape [(n,)] gives the leading dimension [n] and the array tiled to
    [(m, n)], which is what the tiled array gives when it is passed itself;
    a vector of shape [(m,)] gives the leading dimension 1 and is left as it
    is; an array of the shape of [x] gives [n]; every other shape raises a
    ShapeMismatch error.  The whole call does not tell a vector of shape
    [(n,)] from its tiled array. *)
Theorem broadcast_along_x_idempotent (x y : ndarray float64) (m nq n : nat) :
  check_x_y x y = inr (m, nq, n) → 1 < m → n ≠ m →
  (∀ A (msg : Message) (v : ndarray A),
     (shape v = [n] →
      check_like_x msg (Some v) x m n = inr (n, Some (np.tile_rows v m))
      ∧ check_like_x msg (Some (np.tile_rows v m)) x m n
        = check_like_x msg (Some v) x m n
      ∧ shape (np.tile_rows v m) = shape x
      ∧ (∀ i j, i < m → j < length (data v) →
           data (np.tile_rows v m) !! (i * length (data v) + j)
           = data v !! j))
     ∧ (shape v = [m] → check_like_x msg (Some v) x m n = inr (1, Some v))
     ∧ (shape v = shape x → check_like_x msg (Some v) x m n = inr (n, Some v))
     ∧ (shape v ≠ shape x → shape v ≠ [m] → shape v ≠ [n] →
        check_like_x msg (Some v) x m n = inl (ValueError msg)))
  ∧ check_ifixx = check_like_x IfixxShape
  ∧ check_stpd = check_like_x StpdShape
  ∧ check_scld = check_like_x ScldShape
  ∧ error_kind (ValueError IfixxShape) = Some ShapeMismatch
  ∧ error_kind (ValueError StpdShape) = Some ShapeMismatch
  ∧ error_kind (ValueError ScldShape) = Some ShapeMismatch
  ∧ (∀ wsd diwinf dwinf _odr (a : Args),
       arg_x a = x → arg_y a = y →
       (∀ v, arg_ifixx a = Some v → shape v = [n] →
          let a' := with_ifixx a (Some (np.tile_rows v m)) in
          validate wsd a' = validate wsd a
          ∧ odr wsd diwinf dwinf _odr a' = odr wsd diwinf dwinf _odr a)
       ∧ (∀ v, arg_stpd a = Some v → shape v = [n] →
          let a' := with_stpd a (Some (np.tile_rows v m)) in
          validate wsd a' = validate wsd a
          ∧ odr wsd diwinf dwinf _odr a' = odr wsd diwinf dwinf _odr a)
       ∧ (∀ v, arg_scld a = Some v → shape v = [n] →
          let a' := with_scld a (Some (np.tile_rows v m)) in
          validate wsd a' = validate wsd a
          ∧ odr wsd diwinf dwinf _odr a' = odr wsd diwinf dwinf _odr a)).
Proof.
  intros Hxy Hm Hn.
  pose proof (check_x_y_rank2 _ _ _ _ _ Hxy Hm) as Hx.
  split_and!; try reflexivity.
  - intros A msg v. split_and!.
    + intros Hv.
      destruct (check_like_x_tiled msg v x m n Hx Hm Hn Hv) as [Hsame Hn'].
      split_and!; [done | done | |].
      * cbn [np.tile_rows shape]. by rewrite Hv, Hx.
      * intros i j. apply tile_rows_lookup.
    + intros Hv. rewrite check_like_x_cases by done.
      rewrite decide_False by (rewrite Hv; discriminate).
      by rewrite decide_True by done.
    + intros Hv. rewrite check_like_x_cases by done.
      by rewrite decide_True by congruence.
    + intros H1 H2 H3. rewrite check_like_x_cases by done.
      rewrite decide_False by congruence.
      by rewrite !decide_False by done.
  - intros wsd diwinf dwinf _odr a <- <-.
    destruct (validate_tiled wsd a m nq n Hxy Hm Hn) as (Hi & Hs & Hc).
    split_and!; intros v Hv Hshape a'; subst a'; (split; [by auto|]);
      apply odr_same_validation; try reflexivity; auto.
Qed.

Lemma broadcast_along_x_idempotent_witness :
  let x := NDArray [2; 3] [1; 2; 3; 4; 5; 6]%float in
  let v := NDArray [3] [1; 0; 1]%Z in
  let tiled := NDArray [2; 3] [1; 0; 1; 1; 0; 1]%Z in
  check_ifixx (Some v) x 2 3 = inr (3, Some tiled)
  ∧ check_ifixx (Some tiled) x 2 3 = inr (3, Some tiled)
  ∧ check_ifixx (Some (NDArray [2] [1; 0]%Z)) x 2 3
    = inr (1, Some (NDArray [2] [1; 0]%Z)).
Proof.
  intros x v tiled.
  assert (Hxy : check_x_y x Sample.y3 = inr (2, 1, 3)) by reflexivity.
  destruct (broadcast_along_x_idempotent x Sample.y3 2 1 3 Hxy)
    as (Hstage & _); [lia | lia |].
  destruct (Hstage Z IfixxShape v) as (Hn & _).
  destruct (Hn eq_refl) as (Hv & Htiled & _).
  destruct (Hstage Z IfixxShape (NDArray [2] [1; 0]%Z)) as (_ & Hm & _).
  split_and!.
  - exact Hv.
  - exact (eq_trans Htiled Hv).
  - exact (Hm eq_refl).
Defined.

(** ** Weights *)

Lemma rank3_weight_shapes (q n d1 d2 : nat) :
  [q; d1; d2] ∈ [[q; 1; 1]; [q; 1; n]; [q; q; 1]; [q; q; n]]
  ↔ (d1 = 1 ∨ d1 = q) ∧ (d2 = 1 ∨ d2 = n).
Proof.
  rewrite !elem_of_cons, elem_of_nil. split.
  - intros [[= -> ->]|[[= -> ->]|[[= -> ->]|[[= -> ->]|[]]]]]; tauto.
  - intros [[->| ->] [->| ->]]; tauto.
Qed.

Lemma check_weight_rank3 (shape_msg type_msg : Message) (a : ndarray float64)
    (q n : nat) :
  shape a ∈ [[q; 1; 1]; [q; 1; n]; [q; q; 1]; [q; q; n]] →
  ∃ d1 d2, shape a = [q; d1; d2]
           ∧ check_weight shape_msg type_msg (Some (WArray a)) q n
             = inr (d2, d1, Some a).
Proof.
  intros Hin.
  assert (∃ d1 d2, shape a = [q; d1; d2]) as (d1 & d2 & Hshape).
  { rewrite !elem_of_cons, elem_of_nil in Hin.
    destruct Hin as [->|[->|[->|[->|[]]]]]; eauto. }
  exists d1, d2. split; [done|].
  unfold check_weight.
  rewrite decide_False by (rewrite Hshape; discriminate).
  rewrite decide_False by (rewrite Hshape; discriminate).
  rewrite decide_False by (rewrite Hshape; intros [|[]]; discriminate).
  rewrite decide_True by done.
  unfold np.shape_at. by rewrite Hshape.
Qed.

(** C1, as the specification words its table, fails: for [nq = 2] and
    [n = 5] a weight of shape [(2,)] has the descriptor [(1, 1)], where the
    first entry of the table gives [ld = n = 5]. *)
Lemma weight_table_counterexample :
  let we := NDArray [2] [1; 1]%float in
  check_we (Some (WArray we)) 2 5 = inr (1, 1, Some we)
  ∧ spec_weight_table 2 5 (shape we) = Some (5, 1)
  ∧ (1, 1) ≠ (5, 1).
Proof. split_and!; [reflexivity | reflexivity | discriminate]. Qed.

(** C1, as the driver has it.  A scalar becomes a vector of length [q] with
    [ld = 1, ld2 = 1]; an array is matched in this order: shape [(q,)]
    gives [(1, 1)]; [(q, q)] gives [(1, q)]; [(q, n)], or [(n,)] when
    [q = 1], gives [(n, 1)]; [(q, 1, 1)], [(q, 1, n)], [(q, q, 1)] and
    [(q, q, n)] give [ld] the last and [ld2] the middle axis length; any
    other array raises a ShapeMismatch error, and an object that is neither
    raises a TypeError.  Away from shape [(q,)] this is the table of the
    specification. *)
Theorem weight_shapes_dispatched (shape_msg type_msg : Message) (q n : nat) :
  (∀ v, check_weight shape_msg type_msg (Some (WScalar v)) q n
        = inr (1, 1, Some (NDArray [q] (replicate q v))))
  ∧ check_weight shape_msg type_msg None q n = inr (1, 1, None)
  ∧ check_weight shape_msg type_msg (Some WObject) q n
    = inl (TypeError type_msg)
  ∧ (∀ a : ndarray float64,
       let outcome := check_weight shape_msg type_msg (Some (WArray a)) q n in
       (shape a = [q] → outcome = inr (1, 1, Some a))
       ∧ (shape a = [q; q] → outcome = inr (1, q, Some a))
       ∧ (shape a = [q; n] → q ≠ n → outcome = inr (n, 1, Some a))
       ∧ (shape a = [n] → q = 1 → n ≠ 1 → outcome = inr (n, 1, Some a))
       ∧ (∀ d1 d2, shape a = [q; d1; d2] →
            d1 = 1 ∨ d1 = q → d2 = 1 ∨ d2 = n →
            outcome = inr (d2, d1, Some a))
       ∧ (shape a ∉ [[q]; [q; q]; [q; n];
                     [q; 1; 1]; [q; 1; n]; [q; q; 1]; [q; q; n]] →
          ¬ (shape a = [n] ∧ q = 1) →
          outcome = inl (ValueError shape_msg))
       ∧ (shape a ≠ [q] →
          match outcome with
          | inr (ld, ld2, w) =>
              spec_weight_table q n (shape a) = Some (ld, ld2) ∧ w = Some a
          | inl e =>
              spec_weight_table q n (shape a) = None
              ∧ e = ValueError shape_msg
          end))
  ∧ check_we = check_weight WeShape WeType
  ∧ check_wd = check_weight WdShape WdType
  ∧ error_kind (ValueError WeShape) = Some ShapeMismatch
  ∧ error_kind (ValueError WdShape) = Some ShapeMismatch
  ∧ (∀ wsd (a : Args) (l : Locals),
       validate wsd a = inr l →
       check_we (arg_we a) (l_nq l) (l_n l) = inr (l_ldwe l, l_ld2we l, l_we l)
       ∧ check_wd (arg_wd a) (l_m l) (l_n l)
         = inr (l_ldwd l, l_ld2wd l, l_wd l)).
Proof.
  split_and!; try reflexivity.
  - intros v. unfold check_weight, np.full. cbn [foldr].
    by rewrite Nat.mul_1_r.
  - intros a outcome. subst outcome. split_and!.
    + intros Hs. unfold check_weight. by rewrite decide_True.
    + intros Hs. unfold check_weight.
      rewrite decide_False by (rewrite Hs; discriminate).
      by rewrite decide_True.
    + intros Hs Hqn. unfold check_weight.
      rewrite decide_False by (rewrite Hs; discriminate).
      rewrite decide_False by (rewrite Hs; congruence).
      by rewrite decide_True by tauto.
    + intros Hs Hq Hn. unfold check_weight.
      rewrite decide_False by (rewrite Hs; congruence).
      rewrite decide_False by (rewrite Hs; discriminate).
      by rewrite decide_True by tauto.
    + intros d1 d2 Hs Hd1 Hd2.
      destruct (check_weight_rank3 shape_msg type_msg a q n)
        as (d1' & d2' & Hs' & Hout).
      { rewrite Hs. by apply rank3_weight_shapes. }
      rewrite Hs in Hs'. by injection Hs' as -> ->.
    + rewrite !not_elem_of_cons. intros (H1 & H2 & H3 & H4 & H5 & H6 & H7 & _) H8.
      unfold check_weight.
      rewrite !decide_False; try done.
      * rewrite !not_elem_of_cons. split_and!; try done. apply not_elem_of_nil.
      * tauto.
    + intros Hq.
      destruct (decide (shape a ∈ [[q; 1; 1]; [q; 1; n]; [q; q; 1]; [q; q; n]]))
        as [Hin|Hout].
      * destruct (check_weight_rank3 shape_msg type_msg a q n Hin)
          as (d1 & d2 & Hs & ->).
        split; [|done]. unfold spec_weight_table.
        rewrite decide_False by (rewrite Hs; intros [|[]]; discriminate).
        rewrite decide_False by (rewrite Hs; discriminate).
        rewrite decide_False by (rewrite Hs; intros [|[]]; discriminate).
        rewrite decide_True by done. by rewrite Hs.
      * unfold check_weight, spec_weight_table.
        rewrite (decide_False (P := shape a = [q])) by done.
        destruct (decide (shape a = [q; q])) as [Hqq|Hqq].
        { rewrite decide_False by (rewrite Hqq; intros [|[]]; discriminate).
          done. }
        destruct (decide (shape a = [q; n] ∨ shape a = [n] ∧ q = 1))
          as [Hqn|Hqn].
        { by destruct (decide (shape a = [q] ∨ shape a = [n] ∧ q = 1)). }
        rewrite !decide_False by (done || tauto).
        done.
  - intros wsd a l Hl. apply validate_inv in Hl as []. by split.
Qed.

Lemma weight_shapes_dispatched_witness :
  let full := NDArray [2; 2; 5] (replicate 20 1%float) in
  check_we (Some (WArray full)) 2 5 = inr (5, 2, Some full)
  ∧ check_we (Some (WScalar 1%float)) 2 5
    = inr (1, 1, Some (NDArray [2] [1; 1]%float)).
Proof.
  intros full.
  destruct (weight_shapes_dispatched WeShape WeType 2 5)
    as (Hscalar & _ & _ & Harray & _).
  destruct (Harray full) as (_ & _ & _ & _ & Hrank3 & _).
  split.
  - apply (Hrank3 2 5); [reflexivity | by right | by right].
  - apply Hscalar.
Defined.

(** ** The scenarios of the specification *)

Lemma dimensions_inferred_or_shape_mismatch_witness :
  let x := NDArray [2; 10] (replicate 20 1%float) in
  let y := NDArray [1; 2; 10] (replicate 20 1%float) in
  ∃ e, check_dimensions x y Sample.beta2 = inl e
       ∧ error_kind e = Some ShapeMismatch.
Proof.
  intros x y.
  destruct (dimensions_inferred_or_shape_mismatch x y Sample.beta2)
    as (Hiff & Hkind & _).
  destruct (proj2 Hiff) as [e He].
  { right. left. intros [H|H]; discriminate H. }
  exists e. split; [exact He | exact (Hkind e He)].
Defined.

Example restart_without_buffers :
  Sample.validate (Sample.restart None None) = inl (ValueError WorkJob).
Proof. vm_compute. reflexivity. Qed.

Example restart_with_one_buffer :
  Sample.validate (Sample.restart (Some (np.zeros 0%float 110)) None)
  = inl (ValueError WorkJob).
Proof. vm_compute. reflexivity. Qed.

Example buffers_without_restart :
  Sample.validate
    (with_work Sample.call 0 (Some (np.zeros 0%float 110))
       (Some (np.zeros 0%Z 27)))
  = inl (ValueError WorkJob).
Proof. vm_compute. reflexivity. Qed.

Example restart_with_wrong_length :
  Sample.validate
    (Sample.restart (Some (np.zeros 0%float 500)) (Some (np.zeros 0%Z 27)))
  = inl (ValueError WorkSize)
  ∧ Sample.validate
      (Sample.restart (Some (np.zeros 0%float 110)) (Some (np.zeros 0%Z 500)))
    = inl (ValueError IworkSize).
Proof. split; vm_compute; reflexivity. Qed.

(** The buffers that a first run returns are accepted by a restart. *)
Example restart_round_trip :
  ∃ r l, Sample.odr Sample.call = inr r
         ∧ Sample.validate
             (Sample.restart (Some (OdrResult.work r)) (Some (OdrResult.iwork r)))
           = inr l
         ∧ l_work l = OdrResult.work r
         ∧ l_iwork l = OdrResult.iwork r.
Proof. do 2 eexists. split_and!; vm_compute; reflexivity. Qed.

(** The example of the docstring ([beta0 = [2, 0.5]], [lower = [0, 0]],
    [upper = [10, 0.9]], with 0.9 as the float64 it is read as) passes the
    bounds check; a bound equal to the initial parameter does not. *)
Example docstring_bounds :
  let beta0 := Sample.vec [2; 0.5]%float in
  check_lower (Some (Sample.vec [0; 0]%float)) beta0 = inr tt
  ∧ check_upper (Some (Sample.vec [10; 0x1.ccccccccccccdp-1]%float)) beta0
    = inr tt
  ∧ check_upper (Some (Sample.vec [10; 0.5]%float)) beta0
    = inl (ValueError UpperNotGreater).
Proof. split_and!; vm_compute; reflexivity. Qed.

Example interpret_info_below_one :
  _interpret_info 0 = EmptyString ∧ _interpret_info (-3) = EmptyString.
Proof. split; reflexivity. Qed.

(** * Further properties of the driver *)

(** ** Shapes behind the dimensions *)

Lemma check_dimensions_inv (x y beta0 beta : ndarray float64)
    (m nq n npar : nat) :
  check_dimensions x y beta0 = inr (m, nq, n, npar, beta) →
  check_x_y x y = inr (m, nq, n) ∧ check_beta0 beta0 = inr (npar, beta).
Proof.
  unfold check_dimensions. intros H.
  destruct (check_x_y x y) as [e|[[m' nq'] n']]; [discriminate|].
  cbn [mbind result_bind] in H.
  destruct (check_beta0 beta0) as [e|[npar' beta']]; [discriminate|].
  by injection H as -> -> -> -> ->.
Qed.

Lemma check_x_y_shapes (x y : ndarray float64) (m nq n : nat) :
  check_x_y x y = inr (m, nq, n) →
  ((shape x = [n] ∧ m = 1) ∨ shape x = [m; n])
  ∧ ((shape y = [n] ∧ nq = 1) ∨ shape y = [nq; n]).
Proof.
  destruct x as [[|x0 [|x1 [|x2 xs]]] xd], y as [[|y0 [|y1 [|y2 ys]]] yd];
    cbv [check_x_y np.ndim np.shape_at np.shape_last shape]; simpl;
    decide_all; simpl; try discriminate;
    intros [= <- <- <-]; subst; split; (by left) || (by right).
Qed.

Lemma check_beta0_inv (beta0 beta : ndarray float64) (npar : nat) :
  check_beta0 beta0 = inr (npar, beta) → shape beta0 = [npar] ∧ beta = beta0.
Proof.
  unfold check_beta0, np.ndim, np.size, np.copy.
  destruct (decide _) as [Hrank|]; [|discriminate].
  intros [= <- <-]. split; [|done].
  destruct (shape beta0) as [|b0 [|b1 bs]]; try discriminate.
  cbn [foldr]. by rewrite Nat.mul_1_r.
Qed.

Lemma validated_shapes wsd (a : Args) (l : Locals) :
  validate wsd a = inr l →
  check_x_y (arg_x a) (arg_y a) = inr (l_m l, l_nq l, l_n l)
  ∧ ((shape (arg_x a) = [l_n l] ∧ l_m l = 1)
     ∨ shape (arg_x a) = [l_m l; l_n l])
  ∧ ((shape (arg_y a) = [l_n l] ∧ l_nq l = 1)
     ∨ shape (arg_y a) = [l_nq l; l_n l])
  ∧ shape (arg_beta0 a) = [l_npar l]
  ∧ l_beta l = arg_beta0 a.
Proof.
  intros Hl. apply validate_inv in Hl as [].
  apply check_dimensions_inv in v_dimensions0 as [Hxy Hb].
  apply check_beta0_inv in Hb as [Hb Hbeta].
  destruct (check_x_y_shapes _ _ _ _ _ Hxy) as [Hx Hy].
  by split_and!.
Qed.

(** ** Arrays that go with [beta0] *)

Lemma check_like_beta0_inr {A} (msg : Message) (arg : option (ndarray A))
    (beta0 : ndarray float64) :
  check_like_beta0 msg arg beta0 = inr tt
  ↔ ∀ v, arg = Some v → shape v = shape beta0.
Proof.
  unfold check_like_beta0. destruct arg as [v|].
  - rewrite raise_if_inr, bool_decide_eq_false. split.
    + intros Hv v' [= <-]. by destruct (decide (shape v = shape beta0)).
    + intros Hv Hne. apply Hne. by apply Hv.
  - split; [intros _ v [=] | done].
Qed.

(** X1.  [ifixb], [stpb] and [sclb] are accepted when they are left out or
    have exactly the shape of [beta0], and raise a ShapeMismatch error with
    their own message otherwise; in a call that reaches the routine,
    [beta0] and every one of [ifixb], [stpb], [sclb], [lower], [upper] that
    is given has the shape [(npar,)]. *)
Theorem parameter_arrays_have_beta0_shape wsd (a : Args) :
  (∀ A (msg : Message) (arg : option (ndarray A)),
     (check_like_beta0 msg arg (arg_beta0 a) = inr tt
      ↔ ∀ v, arg = Some v → shape v = shape (arg_beta0 a))
     ∧ (∀ v, arg = Some v → shape v ≠ shape (arg_beta0 a) →
        check_like_beta0 msg arg (arg_beta0 a) = inl (ValueError msg)))
  ∧ error_kind (ValueError IfixbShape) = Some ShapeMismatch
  ∧ error_kind (ValueError StpbShape) = Some ShapeMismatch
  ∧ error_kind (ValueError SclbShape) = Some ShapeMismatch
  ∧ (∀ l, validate wsd a = inr l →
       shape (arg_beta0 a) = [l_npar l]
       ∧ (∀ v, arg_ifixb a = Some v → shape v = [l_npar l])
       ∧ (∀ v, arg_stpb a = Some v → shape v = [l_npar l])
       ∧ (∀ v, arg_sclb a = Some v → shape v = [l_npar l])
       ∧ (∀ v, arg_lower a = Some v → shape v = [l_npar l])
       ∧ (∀ v, arg_upper a = Some v → shape v = [l_npar l])).
Proof.
  split_and!; try reflexivity.
  - intros A msg arg. split; [apply check_like_beta0_inr|].
    intros v -> Hne. unfold check_like_beta0, raise_if.
    by rewrite bool_decide_eq_true_2.
  - intros l Hl.
    destruct (validated_shapes _ _ _ Hl) as (_ & _ & _ & Hb & _).
    apply validate_inv in Hl as [].
    rewrite <- Hb. split_and!; [done | | | | |].
    + exact (proj1 (check_like_beta0_inr _ _ _) v_ifixb0).
    + exact (proj1 (check_like_beta0_inr _ _ _) v_stpb0).
    + exact (proj1 (check_like_beta0_inr _ _ _) v_sclb0).
    + intros v Hv. rewrite Hv, check_lower_supplied in v_lower0.
      by destruct (decide (shape v = shape (arg_beta0 a))).
    + intros v Hv. rewrite Hv, check_upper_supplied in v_upper0.
      by destruct (decide (shape v = shape (arg_beta0 a))).
Qed.

(** ** Rank-1 arrays along [x] when they cannot be told apart *)

(** X2.  Outside the case [m > 1] and [n ≠ m] nothing is broadcast: for a
    rank-1 [x], for [x] of shape [(1, n)] and for a square [x] the arrays
    [ifixx], [stpd] and [scld] are accepted in the shape of [x] only, and a
    vector of length [m = n] along a square [x] is turned down. *)
Theorem no_broadcast_unless_m_n_distinct {A} (msg : Message)
    (x y : ndarray float64) (m nq n : nat) (v : ndarray A) :
  check_x_y x y = inr (m, nq, n) → m ≤ 1 ∨ n = m →
  check_like_x msg (Some v) x m n
  = (if decide (shape v = shape x) then inr (n, Some v)
     else inl (ValueError msg))
  ∧ (1 < m → shape v = [m] →
     check_like_x msg (Some v) x m n = inl (ValueError msg)).
Proof.
  intros Hxy Hmn.
  assert (Hcases : check_like_x msg (Some v) x m n
                   = if decide (shape v = shape x) then inr (n, Some v)
                     else inl (ValueError msg)).
  { unfold check_like_x.
    destruct (decide (shape v = shape x)); [done|].
    by rewrite !decide_False by lia. }
  split; [exact Hcases|].
  intros Hm Hv. rewrite Hcases.
  destruct (check_x_y_shapes _ _ _ _ _ Hxy) as [[[Hx ->]| Hx] _]; [lia|].
  rewrite decide_False; [done|]. rewrite Hv, Hx. discriminate.
Qed.

Lemma no_broadcast_unless_m_n_distinct_witness :
  let x := NDArray [3; 3] (replicate 9 1%float) in
  let y := Sample.y3 in
  check_ifixx (Some (NDArray [3] [1; 0; 1]%Z)) x 3 3
  = inl (ValueError IfixxShape).
Proof.
  intros x y.
  assert (Hxy : check_x_y x y = inr (3, 1, 3)) by reflexivity.
  destruct (no_broadcast_unless_m_n_distinct IfixxShape x y 3 1 3
              (NDArray [3] [1; 0; 1]%Z) Hxy) as (_ & Hvec); [by right|].
  apply Hvec; [lia | reflexivity].
Defined.

(** ** Descriptors and extents *)

Lemma check_like_x_extent {A} (msg : Message) (arg out : option (ndarray A))
    (x y : ndarray float64) (m nq n ld : nat) :
  check_x_y x y = inr (m, nq, n) →
  check_like_x msg arg x m n = inr (ld, out) →
  (arg = None ∧ out = None ∧ ld = 1)
  ∨ (∃ v, out = Some v ∧ np.size v = ld * m ∧ (ld = 1 ∨ ld = n)).
Proof.
  intros Hxy. destruct (check_x_y_shapes _ _ _ _ _ Hxy) as [Hx _].
  unfold check_like_x. destruct arg as [a|]; [|intros [= <- <-]; by left].
  destruct (decide (shape a = shape x)) as [Ha|_].
  { intros [= <- <-]. right. exists a. split_and!; [done | | by right].
    unfold np.size. rewrite Ha.
    destruct Hx as [[-> ->]| ->]; cbn [foldr]; lia. }
  destruct (decide (shape a = [m] ∧ 1 < m ∧ n ≠ m)) as [(Ha & _ & _)|_].
  { intros [= <- <-]. right. exists a. split_and!; [done | | by left].
    unfold np.size. rewrite Ha. cbn [foldr]. lia. }
  destruct (decide (shape a = [n] ∧ 1 < m ∧ n ≠ m)) as [(Ha & _ & _)|_];
    [|discriminate].
  intros [= <- <-]. right. exists (np.tile_rows a m).
  split_and!; [done | | by right].
  unfold np.size. cbn [np.tile_rows shape]. rewrite Ha. cbn [foldr]. lia.
Qed.

Lemma check_weight_extent (shape_msg type_msg : Message) (w : option weight)
    (out : option (ndarray float64)) (q n ld ld2 : nat) :
  check_weight shape_msg type_msg w q n = inr (ld, ld2, out) →
  (w = None ∧ out = None ∧ ld = 1 ∧ ld2 = 1)
  ∨ (∃ arr, out = Some arr ∧ np.size arr = ld * ld2 * q
            ∧ (ld = 1 ∨ ld = n) ∧ (ld2 = 1 ∨ ld2 = q)).
Proof.
  destruct w as [[v|a|]|]; [| | discriminate | intros [= <- <- <-]; by left].
  { intros [= <- <- <-]. right. eexists. split_and!; [done | | by left..].
    unfold np.size, np.full. cbn [shape foldr]. lia. }
  destruct (decide (shape a ∈ [[q; 1; 1]; [q; 1; n]; [q; q; 1]; [q; q; n]]))
    as [Hin|Hout].
  { destruct (check_weight_rank3 shape_msg type_msg a q n Hin)
      as (d1 & d2 & Hs & ->).
    rewrite Hs in Hin. apply rank3_weight_shapes in Hin as [Hd1 Hd2].
    intros [= <- <- <-]. right. exists a. split_and!; [done | | done..].
    unfold np.size. rewrite Hs. cbn [foldr]. lia. }
  unfold check_weight.
  destruct (decide (shape a = [q])) as [Ha|_].
  { intros [= <- <- <-]. right. exists a. split_and!; [done | | by left..].
    unfold np.size. rewrite Ha. cbn [foldr]. lia. }
  destruct (decide (shape a = [q; q])) as [Ha|_].
  { intros [= <- <- <-]. right. exists a.
    split_and!; [done | | by left | by right].
    unfold np.size. rewrite Ha. cbn [foldr]. lia. }
  destruct (decide (shape a = [q; n] ∨ shape a = [n] ∧ q = 1))
    as [Ha|_].
  { intros [= <- <- <-]. right. exists a.
    split_and!; [done | | by right | by left].
    unfold np.size. destruct Ha as [-> | [-> ->]]; cbn [foldr]; lia. }
  rewrite decide_False by done. discriminate.
Qed.

(** X3.  In a call that reaches the routine every array has the extent that
    its descriptor announces: [x] and [delta] have [n·m] entries, [beta] has
    [npar]; [ifixx], [stpd] and [scld] have [ld·m] entries with [ld] equal to
    1 or [n] ([ld = 1] when they are left out); [we] has [ldwe·ld2we·nq] and
    [wd] has [ldwd·ld2wd·m] entries, with [ld] equal to 1 or [n] and [ld2]
    equal to 1 or to [nq], respectively [m]. *)
Theorem descriptors_match_extents wsd (a : Args) (l : Locals) :
  validate wsd a = inr l →
  let along_x {A} (ld : nat) (arr : option (ndarray A)) :=
    match arr with
    | Some v => np.size v = ld * l_m l ∧ (ld = 1 ∨ ld = l_n l)
    | None => ld = 1
    end in
  let weight (ld ld2 q : nat) (arr : option (ndarray float64)) :=
    match arr with
    | Some w => np.size w = ld * ld2 * q
                ∧ (ld = 1 ∨ ld = l_n l) ∧ (ld2 = 1 ∨ ld2 = q)
    | None => ld = 1 ∧ ld2 = 1
    end in
  np.size (arg_x a) = l_n l * l_m l
  ∧ np.size (arg_y a) = l_n l * l_nq l
  ∧ np.size (l_delta l) = l_n l * l_m l
  ∧ np.size (l_beta l) = l_npar l
  ∧ along_x (l_ldifx l) (l_ifixx l)
  ∧ along_x (l_ldstpd l) (l_stpd l)
  ∧ along_x (l_ldscld l) (l_scld l)
  ∧ weight (l_ldwe l) (l_ld2we l) (l_nq l) (l_we l)
  ∧ weight (l_ldwd l) (l_ld2wd l) (l_m l) (l_wd l).
Proof.
  intros Hl along_x weight.
  destruct (validated_shapes _ _ _ Hl) as (Hxy & Hx & Hy & Hb & Hbeta).
  apply validate_inv in Hl as [].
  assert (Hsx : np.size (arg_x a) = l_n l * l_m l).
  { unfold np.size. destruct Hx as [[-> ->]| ->]; cbn [foldr]; lia. }
  assert (Halong : ∀ A msg (arg out : option (ndarray A)) ld,
            check_like_x msg arg (arg_x a) (l_m l) (l_n l) = inr (ld, out) →
            along_x A ld out).
  { intros A msg arg out ld Hc.
    destruct (check_like_x_extent _ _ _ _ _ _ _ _ _ Hxy Hc)
      as [(_ & -> & ->) | (v & -> & Hv)]; done. }
  assert (Hweight : ∀ sm tm w out q ld ld2,
            check_weight sm tm w q (l_n l) = inr (ld, ld2, out) →
            weight ld ld2 q out).
  { intros sm tm w out q ld ld2 Hc.
    destruct (check_weight_extent _ _ _ _ _ _ _ _ Hc)
      as [(_ & -> & -> & ->) | (arr & -> & Harr)]; done. }
  split_and!; eauto.
  - unfold np.size. destruct Hy as [[-> ->]| ->]; cbn [foldr]; lia.
  - unfold np.size. rewrite (check_delta0_shape _ _ _ _ v_delta1).
    exact Hsx.
  - rewrite Hbeta. unfold np.size. rewrite Hb. cbn [foldr]. lia.
Qed.

Lemma descriptors_match_extents_witness :
  let x := NDArray [2; 3] [1; 2; 3; 4; 5; 6]%float in
  let stpd := NDArray [3] [1; 1; 1]%float in
  let a := with_stpd (Sample.plain Sample.beta2 x x) (Some stpd) in
  ∃ l, Sample.validate a = inr l
       ∧ l_ldstpd l = 3
       ∧ ∃ tiled, l_stpd l = Some tiled ∧ np.size tiled = 3 * 2.
Proof.
  intros x stpd a.
  assert (∃ l, Sample.validate a = inr l ∧ l_ldstpd l = 3 ∧ l_m l = 2
               ∧ is_Some (l_stpd l)) as (l & Hl & Hld & Hm & [tiled Ht])
    by (eexists; split_and!; [vm_compute; reflexivity | reflexivity..
                              | eexists; reflexivity]).
  exists l. split_and!; [exact Hl | exact Hld |].
  exists tiled. split; [exact Ht|].
  destruct (descriptors_match_extents Sample.workspace_dimensions a l Hl)
    as (_ & _ & _ & _ & _ & Hstpd & _).
  rewrite Ht, Hld, Hm in Hstpd. exact (proj1 Hstpd).
Defined.

(** ** Model function and Jacobians *)

Lemma check_jacobian_supplied (shape_msg job_msg : Message) (g : model)
    (beta0 x : ndarray float64) (n k nq : nat) :
  check_jacobian shape_msg job_msg true (Some g) beta0 x n k nq
  = match list.last (shape (g beta0 x)) with
    | None => inl IndexError
    | Some d =>
        if decide (d = n ∧ np.size (g beta0 x) = n * k * nq) then inr g
        else inl (ValueError shape_msg)
    end.
Proof.
  unfold check_jacobian, np.shape_last.
  destruct (list.last (shape (g beta0 x))) as [d|]; [|done].
  cbn [mbind result_bind mret result_ret]. unfold raise_if.
  destruct (decide (d = n ∧ np.size (g beta0 x) = n * k * nq)) as [[Hd Hs]|Hno].
  - by rewrite !bool_decide_eq_false_2 by (intros ?; contradiction).
  - destruct (decide (d = n)) as [Hd|Hd].
    + rewrite (bool_decide_eq_false_2 (d ≠ n)) by (intros ?; contradiction).
      by rewrite bool_decide_eq_true_2 by tauto.
    + by rewrite (bool_decide_eq_true_2 (d ≠ n)) by done.
Qed.

(** X4.  A supplied Jacobian is judged on its value at [(beta0, x)], by
    two numbers only, the length of its last axis, which must be [n], and
    its number of entries, which must be [n·k·nq] ([k = npar] for [fjacb],
    [k = m] for [fjacd]): an array of shape [(nq, k, n)] passes, one of the
    shape [(n, k, nq)] fails unless [nq = n], and a rank-0 array raises an
    IndexError instead of the ValueError of the check.  With the job digit
    unset and no Jacobian the routine gets the dummy function; the digit
    without the function, or the function without the digit, raises an
    InconsistentJobArgument error. *)
Theorem jacobian_check_outcomes (shape_msg job_msg : Message)
    (beta0 x : ndarray float64) (n k nq : nat) :
  let check flag fjac :=
    check_jacobian shape_msg job_msg flag fjac beta0 x n k nq in
  (∀ g d, list.last (shape (g beta0 x)) = Some d →
     (d = n → np.size (g beta0 x) = n * k * nq → check true (Some g) = inr g)
     ∧ (d ≠ n ∨ np.size (g beta0 x) ≠ n * k * nq →
        check true (Some g) = inl (ValueError shape_msg)))
  ∧ (∀ g, shape (g beta0 x) = [] → check true (Some g) = inl IndexError)
  ∧ (∀ g, shape (g beta0 x) = [nq; k; n] → check true (Some g) = inr g)
  ∧ (∀ g, shape (g beta0 x) = [n; k; nq] → nq ≠ n →
       check true (Some g) = inl (ValueError shape_msg))
  ∧ check false None = inr fdummy
  ∧ check true None = inl (ValueError job_msg)
  ∧ (∀ g, check false (Some g) = inl (ValueError job_msg))
  ∧ error_kind (ValueError FjacbShape) = Some ShapeMismatch
  ∧ error_kind (ValueError FjacdShape) = Some ShapeMismatch
  ∧ error_kind (ValueError FjacbJob) = Some InconsistentJobArgument
  ∧ error_kind (ValueError FjacdJob) = Some InconsistentJobArgument.
Proof.
  intros check. subst check. split_and!; try reflexivity.
  - intros g d Hd. rewrite check_jacobian_supplied, Hd. split.
    + intros -> Hs. by rewrite decide_True.
    + intros Hno. rewrite decide_False; [done|]. tauto.
  - intros g Hg. by rewrite check_jacobian_supplied, Hg.
  - intros g Hg. rewrite check_jacobian_supplied, Hg. cbn [list.last].
    rewrite decide_True; [done|]. split; [done|].
    unfold np.size. rewrite Hg. cbn [foldr]. lia.
  - intros g Hg Hne. rewrite check_jacobian_supplied, Hg. cbn [list.last].
    rewrite decide_False; [done|]. tauto.
Qed.

(** X5.  In a call that reaches the routine the model function returns, at
    [(beta0, x)], an array of the shape of [y]; and either the second digit
    of [job] is above 1 and both Jacobians are given, each with last axis
    [n] and [n·npar·nq], respectively [n·m·nq], entries, and are handed on
    as they are; or the digit is at most 1, no Jacobian is given and the
    routine gets the dummy function twice. *)
Theorem model_and_jacobians_validated wsd (a : Args) (l : Locals) :
  validate wsd a = inr l →
  let beta0 := arg_beta0 a in
  let x := arg_x a in
  shape (arg_f a beta0 x) = shape (arg_y a)
  ∧ c_f (odr_call a l) = arg_f a
  ∧ (((spec_digit (arg_job a) 2 >? 1)%Z = true
      ∧ ∃ gb gd,
          arg_fjacb a = Some gb ∧ arg_fjacd a = Some gd
          ∧ c_fjacb (odr_call a l) = gb ∧ c_fjacd (odr_call a l) = gd
          ∧ list.last (shape (gb beta0 x)) = Some (l_n l)
          ∧ np.size (gb beta0 x) = l_n l * l_npar l * l_nq l
          ∧ list.last (shape (gd beta0 x)) = Some (l_n l)
          ∧ np.size (gd beta0 x) = l_n l * l_m l * l_nq l)
     ∨ ((spec_digit (arg_job a) 2 >? 1)%Z = false
        ∧ arg_fjacb a = None ∧ arg_fjacd a = None
        ∧ c_fjacb (odr_call a l) = fdummy
        ∧ c_fjacd (odr_call a l) = fdummy)).
Proof.
  intros Hl beta0 x. apply validate_inv in Hl as Hv.
  pose proof (validated_flags _ _ _ Hv) as Hflags. destruct Hv.
  assert (Hjac : has_jac (l_flags l) = (spec_digit (arg_job a) 2 >? 1)%Z)
    by (rewrite Hflags; reflexivity).
  rewrite Hjac in v_fjacb0, v_fjacd0.
  split_and!; [| reflexivity |].
  - unfold check_f in v_f0. apply raise_if_inr, bool_decide_eq_false in v_f0.
    by destruct (decide (shape (arg_f a beta0 x) = shape (arg_y a))).
  - cbn [odr_call c_fjacb c_fjacd].
    destruct (spec_digit (arg_job a) 2 >? 1)%Z;
      destruct (arg_fjacb a) as [gb|], (arg_fjacd a) as [gd|];
      try discriminate.
    + left. split; [done|]. exists gb, gd.
      rewrite check_jacobian_supplied in v_fjacb0, v_fjacd0.
      fold beta0 x in v_fjacb0, v_fjacd0.
      destruct (list.last (shape (gb beta0 x))) as [db|]; [|discriminate].
      destruct (list.last (shape (gd beta0 x))) as [dd|]; [|discriminate].
      destruct (decide (db = l_n l ∧ _)) as [[-> Hsb]|]; [|discriminate].
      destruct (decide (dd = l_n l ∧ _)) as [[-> Hsd]|]; [|discriminate].
      injection v_fjacb0 as <-. injection v_fjacd0 as <-.
      by split_and!.
    + right. injection v_fjacb0 as <-. injection v_fjacd0 as <-.
      by split_and!.
Qed.

Lemma model_and_jacobians_validated_witness :
  ∃ l, Sample.validate Sample.call = inr l
       ∧ shape (Sample.f Sample.beta2 Sample.x3) = [3]
       ∧ c_fjacb (odr_call Sample.call l) = fdummy.
Proof.
  assert (∃ l, Sample.validate Sample.call = inr l) as (l & Hl)
    by (eexists; vm_compute; reflexivity).
  exists l. split; [exact Hl|].
  destruct (model_and_jacobians_validated Sample.workspace_dimensions
              Sample.call l Hl) as (Hf & _ & [(Hflag & _) | (_ & _ & _ & Hb & _)]).
  - discriminate Hflag.
  - split; [exact Hf | exact Hb].
Defined.

(** ** The exceptions of validation *)











(** ** Reading the result out of the buffers *)





Lemma slice_length {A} (buf : ndarray A) (i k : nat) :
  length (np.slice buf i (i + k)) = k `min` (length (data buf) - i).
Proof.
  unfold np.slice. rewrite length_take, length_drop. f_equal. lia.
Qed.











(** ** Shapes in the result and the way back into a restart *)

Lemma assemble_fields diwinf dwinf (a : Args) (l : Locals) (out : SolverOut)
    (r : OdrResult.t) :
  assemble diwinf dwinf a l out = inr r →
  OdrResult.beta r = np.overwritten (l_beta l) (out_beta out)
  ∧ OdrResult.work r = np.overwritten (l_work l) (out_work out)
  ∧ OdrResult.iwork r = np.overwritten (l_iwork l) (out_iwork out)
  ∧ shape (OdrResult.eps r) = shape (arg_y a)
  ∧ length (data (OdrResult.eps r)) = np.size (arg_y a)
  ∧ shape (OdrResult.cov_beta r) = [np.size (l_beta l); np.size (l_beta l)]
  ∧ length (data (OdrResult.cov_beta r)) = np.size (l_beta l) ^ 2
  ∧ shape (OdrResult.sd_beta r) = [length (data (OdrResult.sd_beta r))]
  ∧ length (data (OdrResult.sd_beta r)) ≤ np.size (l_beta l).
Proof.
  unfold assemble. cbv zeta. intros H.
  apply bind_inr_inv in H as (ie & _ & H).
  apply bind_inr_inv in H as (eps & Heps & H).
  apply bind_inr_inv in H as (isd & _ & H).
  apply bind_inr_inv in H as (iv & _ & H).
  apply bind_inr_inv in H as (cov & Hcov & H).
  inv_bind H. injection H as <-. cbn.
  unfold np.reshape in Heps, Hcov.
  destruct (decide _) as [Hle|] in Heps; [|discriminate].
  destruct (decide _) as [Hlc|] in Hcov; [|discriminate].
  injection Heps as <-. injection Hcov as <-. cbn [shape data].
  change (np.size (np.overwritten (l_beta l) (out_beta out)))
    with (np.size (l_beta l)) in *.
  split_and!; try done.
  change (foldr Nat.mul 1 (shape (l_beta l))) with (np.size (l_beta l)).
  rewrite slice_length. lia.
Qed.


(** The buffers handed back have the sizes computed for the problem. *)
Lemma returned_buffer_sizes wsd diwinf dwinf _odr (a : Args)
    (r : OdrResult.t) (l : Locals) :
  validate wsd a = inr l →
  assemble diwinf dwinf a l (_odr (odr_call a l)) = inr r →
  np.size (OdrResult.work r) = l_lwork l
  ∧ np.size (OdrResult.iwork r) = l_liwork l.
Proof.
  intros Hl Hr.
  apply assemble_fields in Hr as (_ & Hwork & Hiwork & _).
  apply validate_inv in Hl as [].
  rewrite Hwork, Hiwork.
  change (np.size (np.overwritten ?b ?c)) with (np.size b).
  destruct (is_restart (l_flags l)), (arg_work a) as [w|],
    (arg_iwork a) as [iw|]; try discriminate.
  - rewrite check_work_restart in v_work0.
    destruct (decide _) as [Hw|]; [|discriminate].
    destruct (decide _) as [Hiw|]; [|discriminate].
    by injection v_work0 as <- <-.
  - rewrite check_work_fresh in v_work0. injection v_work0 as <- <-.
    unfold np.size. cbn [shape foldr]. by rewrite !Nat.mul_1_r.
Qed.



Lemma spec_digit_plus_10000 (job : Z) :
  spec_digit (job + 10000) 1 = spec_digit job 1
  ∧ spec_digit (job + 10000) 2 = spec_digit job 2
  ∧ spec_digit (job + 10000) 4 = spec_digit job 4
  ∧ (spec_digit job 5 = 0%Z → spec_digit (job + 10000) 5 = 1%Z).
Proof.
  unfold spec_digit.
  change (10 ^ (1 - 1))%Z with 1%Z. change (10 ^ (2 - 1))%Z with 10%Z.
  change (10 ^ (4 - 1))%Z with 1000%Z. change (10 ^ (5 - 1))%Z with 10000%Z.
  split_and!; [| | |intros H]; Z.div_mod_to_equations; lia.
Qed.

(** X9.  The buffers of a result go back in: after a first run (fifth digit
    of [job] zero) the same call with [job + 10000] and the [work] and
    [iwork] of the result passes every check, and after a restart the same
    call with these buffers does; the routine is then called on the same
    dimensions, descriptors and arrays, with the restart flag set and the
    buffers as they were handed back. *)
Theorem returned_buffers_accepted_by_restart wsd diwinf dwinf _odr
    (a : Args) (r : OdrResult.t) :
  odr wsd diwinf dwinf _odr a = inr r →
  ∃ l, validate wsd a = inr l
       ∧ ((spec_digit (arg_job a) 5 = 0)%Z →
          validate wsd
            (with_work a (arg_job a + 10000) (Some (OdrResult.work r))
               (Some (OdrResult.iwork r)))
          = inr (restarted l (OdrResult.work r) (OdrResult.iwork r)))
       ∧ ((spec_digit (arg_job a) 5 > 0)%Z →
          validate wsd
            (with_work a (arg_job a) (Some (OdrResult.work r))
               (Some (OdrResult.iwork r)))
          = inr (restarted l (OdrResult.work r) (OdrResult.iwork r))).
Proof.
  intros (l & Hl & Hr)%odr_inv.
  exists l. split; [done|].
  destruct (returned_buffer_sizes _ _ _ _ _ _ _ Hl Hr) as [Hw Hiw].
  apply validate_inv in Hl as Hv.
  pose proof (validated_flags _ _ _ Hv) as Hflags. destruct Hv.
  assert (Hwork : check_work true (Some (OdrResult.work r))
                    (Some (OdrResult.iwork r)) (l_lwork l) (l_liwork l)
                  = inr (OdrResult.work r, OdrResult.iwork r)).
  { rewrite check_work_restart. by rewrite !decide_True. }
  destruct (spec_digit_plus_10000 (arg_job a)) as (H1 & H2 & H4 & H5).
  split; intros Hdigit; apply validated_validate;
    (constructor;
     cbn [with_work restarted arg_f arg_beta0 arg_y arg_x arg_we arg_wd
          arg_fjacb arg_fjacd arg_ifixb arg_ifixx arg_delta0 arg_lower
          arg_upper arg_job arg_iprint arg_rptfile arg_errfile arg_ndigit
          arg_taufac arg_sstol arg_partol arg_maxit arg_stpb arg_stpd
          arg_sclb arg_scld arg_work arg_iwork
          l_flags l_m l_nq l_n l_npar l_beta l_delta l_ldifx l_ifixx
          l_ldstpd l_stpd l_ldscld l_scld l_ldwe l_ld2we l_we l_ldwd
          l_ld2wd l_wd l_fjacb l_fjacd l_lwork l_liwork l_work l_iwork
          is_odr has_jac has_delta0 is_restart];
     try assumption).
  - rewrite interpret_job_spec, H1, H2, H4, (H5 Hdigit), Hflags. reflexivity.
  - rewrite interpret_job_spec, Hflags. cbn [is_odr has_jac has_delta0].
    do 2 f_equal. apply Z.gtb_lt. lia.
Qed.

Lemma returned_buffers_accepted_by_restart_witness :
  ∃ r l', Sample.odr Sample.call = inr r
          ∧ Sample.validate
              (with_work Sample.call 10000 (Some (OdrResult.work r))
                 (Some (OdrResult.iwork r))) = inr l'
          ∧ l_work l' = OdrResult.work r.
Proof.
  assert (∃ r, Sample.odr Sample.call = inr r) as (r & Hr)
    by (eexists; vm_compute; reflexivity).
  destruct (returned_buffers_accepted_by_restart Sample.workspace_dimensions
              Sample.diwinf Sample.dwinf Sample._odr Sample.call r Hr)
    as (l & _ & Hfresh & _).
  exists r, (restarted l (OdrResult.work r) (OdrResult.iwork r)).
  split_and!; [exact Hr | exact (Hfresh eq_refl) | reflexivity].
Defined.

(** ** Step sizes and scales *)

(** Runs both sides of an equation between two calls through the checks
    they share. *)
Ltac same_run :=
  repeat first
    [ match goal with
      | |- context [decide ?P] => destruct (decide P)
      end
    | match goal with
      | |- context [mbind _ ?c] =>
          lazymatch c with
          | context [mbind _ _] => fail
          | _ => destruct c as [?|?]
          end
      end;
      cbn [mbind result_bind mret result_ret]; [reflexivity|]
    | match goal with
      | |- context [match ?p with pair _ _ => _ end] =>
          lazymatch p with
          | context [mbind _ _] => fail
          | _ => destruct p
          end
      end ].

Ltac args_of_call :=
  cbn [with_stpb with_sclb with_stpd with_scld with_we with_wd
       arg_f arg_beta0 arg_y arg_x
       arg_we arg_wd arg_fjacb arg_fjacd arg_ifixb arg_ifixx arg_delta0
       arg_lower arg_upper arg_job arg_iprint arg_rptfile arg_errfile
       arg_ndigit arg_taufac arg_sstol arg_partol arg_maxit arg_stpb
       arg_stpd arg_sclb arg_scld arg_work arg_iwork].

Lemma check_like_beta0_same_shape {A} (msg : Message) (s s' : ndarray A)
    (beta0 : ndarray float64) :
  shape s' = shape s →
  check_like_beta0 msg (Some s') beta0 = check_like_beta0 msg (Some s) beta0.
Proof. intros Hs. unfold check_like_beta0. by rewrite Hs. Qed.

(** X10.  The values of [stpb], [sclb], [stpd] and [scld] never reach the
    routine: they are checked for their shape, [stpd] and [scld] set the
    leading dimensions [ldstpd] and [ldscld], and the arrays themselves are
    not among the arguments of [_odr].  A call gives the same outcome,
    result or exception, when one of them is replaced by any array of the
    same shape. *)
Theorem step_and_scale_values_not_passed wsd diwinf dwinf _odr (a : Args) :
  (∀ s s', arg_stpb a = Some s → shape s' = shape s →
     odr wsd diwinf dwinf _odr (with_stpb a (Some s'))
     = odr wsd diwinf dwinf _odr a)
  ∧ (∀ s s', arg_sclb a = Some s → shape s' = shape s →
       odr wsd diwinf dwinf _odr (with_sclb a (Some s'))
       = odr wsd diwinf dwinf _odr a)
  ∧ (∀ s s', arg_stpd a = Some s → shape s' = shape s →
       odr wsd diwinf dwinf _odr (with_stpd a (Some s'))
       = odr wsd diwinf dwinf _odr a)
  ∧ (∀ s s', arg_scld a = Some s → shape s' = shape s →
       odr wsd diwinf dwinf _odr (with_scld a (Some s'))
       = odr wsd diwinf dwinf _odr a).
Proof.
  split_and!; intros s s' Hs Hshape; unfold odr, validate; args_of_call;
    rewrite Hs.
  - rewrite (check_like_beta0_same_shape StpbShape s s') by done.
    same_run. reflexivity.
  - rewrite (check_like_beta0_same_shape SclbShape s s') by done.
    same_run. reflexivity.
  - unfold check_stpd, check_like_x. rewrite Hshape.
    same_run; reflexivity.
  - unfold check_scld, check_like_x. rewrite Hshape.
    same_run; reflexivity.
Qed.

Lemma step_and_scale_values_not_passed_witness :
  let x := NDArray [2; 3] [1; 2; 3; 4; 5; 6]%float in
  let a := with_stpd (Sample.plain Sample.beta2 x x)
             (Some (NDArray [3] [1; 1; 1]%float)) in
  Sample.odr (with_stpd a (Some (NDArray [3] [9; 9; 9]%float))) = Sample.odr a
  ∧ ∃ r, Sample.odr a = inr r.
Proof.
  intros x a.
  destruct (step_and_scale_values_not_passed Sample.workspace_dimensions
              Sample.diwinf Sample.dwinf Sample._odr a) as (_ & _ & Hstpd & _).
  split.
  - exact (Hstpd (NDArray [3] [1; 1; 1]%float) (NDArray [3] [9; 9; 9]%float)
             eq_refl eq_refl).
  - eexists. vm_compute. reflexivity.
Defined.

(** ** More on the job code and the status code *)

Lemma spec_digit_range (job k : Z) : (0 ≤ spec_digit job k ≤ 9)%Z.
Proof.
  unfold spec_digit.
  pose proof (Z.mod_pos_bound (job / 10 ^ (k - 1)) 10). lia.
Qed.

Lemma spec_digit_period (job t : Z) :
  spec_digit (job + 100000 * t) 1 = spec_digit job 1
  ∧ spec_digit (job + 100000 * t) 2 = spec_digit job 2
  ∧ spec_digit (job + 100000 * t) 4 = spec_digit job 4
  ∧ spec_digit (job + 100000 * t) 5 = spec_digit job 5.
Proof.
  unfold spec_digit.
  change (10 ^ (1 - 1))%Z with 1%Z. change (10 ^ (2 - 1))%Z with 10%Z.
  change (10 ^ (4 - 1))%Z with 1000%Z. change (10 ^ (5 - 1))%Z with 10000%Z.
  split_and!; Z.div_mod_to_equations; lia.
Qed.

(** X11.  Every digit that [_get_digit] returns lies between 0 and 9, for
    negative codes too, which are read through floor division: a job code
    and the code plus any multiple of 100000 give the same flags (-1 is read
    as 99999).  The flags depend on the first, second, fourth and fifth
    decimal digit only: the third digit and the digits beyond the fifth do
    not enter. *)
Theorem job_flags_use_four_digits (job : Z) :
  (∀ k, (1 ≤ k)%Z → ∃ d, _get_digit job k = inr d ∧ (0 ≤ d ≤ 9)%Z)
  ∧ (∀ t, interpret_job (job + 100000 * t) = interpret_job job)
  ∧ interpret_job (-1) = interpret_job 99999
  ∧ (∀ ds ds' : list Z,
       decimal ds → decimal ds' →
       (∀ i, i ∈ [0; 1; 3; 4] →
             default 0%Z (ds !! i) = default 0%Z (ds' !! i)) →
       interpret_job (of_digits ds) = interpret_job (of_digits ds')).
Proof.
  split_and!.
  - intros k Hk. exists (spec_digit job k).
    split; [by apply get_digit_spec | apply spec_digit_range].
  - intros t. rewrite !interpret_job_spec.
    destruct (spec_digit_period job t) as (-> & -> & -> & ->). reflexivity.
  - reflexivity.
  - intros ds ds' Hds Hds' Hsame. rewrite !interpret_job_spec.
    change 1%Z with (Z.of_nat 1). change 2%Z with (Z.of_nat 2).
    change 4%Z with (Z.of_nat 4). change 5%Z with (Z.of_nat 5).
    rewrite !spec_digit_of_digits by done.
    rewrite (Hsame 0), (Hsame 1), (Hsame 3), (Hsame 4);
      [reflexivity | | | |]; repeat constructor.
Qed.

Lemma interpret_info_class (info : Z) :
  info_class info ∈ [0; 1; 2; 3; 4; 5]%Z
  ∧ _interpret_info info = _interpret_info (info_class info).
Proof.
  unfold info_class, _interpret_info.
  destruct (Z.eqb_spec info 1) as [->|H1]; [split; [repeat constructor | done]|].
  destruct (Z.eqb_spec info 2) as [->|H2]; [split; [repeat constructor | done]|].
  destruct (Z.eqb_spec info 3) as [->|H3]; [split; [repeat constructor | done]|].
  destruct (Z.eqb_spec info 4) as [->|H4]; [split; [repeat constructor | done]|].
  destruct (Z.geb_spec info 5) as [H5|H5].
  - replace (Z.max 0 (Z.min info 5)) with 5%Z by lia.
    split; [repeat constructor | done].
  - replace (Z.max 0 (Z.min info 5)) with 0%Z by lia.
    split; [repeat constructor | done].
Qed.

(** X12.  The stop reason tells six classes of status codes apart and no
    more: two codes have the same message exactly when both are at most 0,
    or both are at least 5, or they are the same code from 1 to 4.  The
    message is empty exactly for codes at most 0, so a result with such a
    code counts as a success and carries no reason; a success with a
    non-empty reason has a code from 1 to 3. *)
Theorem stop_reason_classes (i j : Z) :
  (_interpret_info i = _interpret_info j ↔ info_class i = info_class j)
  ∧ (_interpret_info i = EmptyString ↔ (i ≤ 0)%Z)
  ∧ (∀ wsd diwinf dwinf _odr (a : Args) (r : OdrResult.t),
       odr wsd diwinf dwinf _odr a = inr r →
       (OdrResult.stopreason r = EmptyString ↔ (OdrResult.info r ≤ 0)%Z)
       ∧ ((OdrResult.info r ≤ 0)%Z → OdrResult.success r = true)
       ∧ (OdrResult.success r = true ∧ OdrResult.stopreason r ≠ EmptyString
          ↔ (1 ≤ OdrResult.info r ≤ 3)%Z)).
Proof.
  assert (Hdistinct : ∀ c d, c ∈ [0; 1; 2; 3; 4; 5]%Z → d ∈ [0; 1; 2; 3; 4; 5]%Z →
            _interpret_info c = _interpret_info d → c = d).
  { intros c d Hc Hd. rewrite !elem_of_cons, elem_of_nil in Hc, Hd.
    destruct Hc as [->|[->|[->|[->|[->|[->|[]]]]]]];
      destruct Hd as [->|[->|[->|[->|[->|[->|[]]]]]]];
      (reflexivity || (intros H; discriminate H)). }
  assert (Hempty : ∀ k, _interpret_info k = EmptyString ↔ (k ≤ 0)%Z).
  { intros k. destruct (interpret_info_class k) as [Hin ->].
    split.
    - intros H. assert (info_class k = 0%Z) as Hk
        by (apply Hdistinct; [done | repeat constructor | done]).
      unfold info_class in Hk. lia.
    - intros Hk. replace (info_class k) with 0%Z; [done|].
      unfold info_class. lia. }
  split_and!.
  - destruct (interpret_info_class i) as [Hi ->],
      (interpret_info_class j) as [Hj ->].
    split; [by apply Hdistinct | by intros ->].
  - apply Hempty.
  - intros wsd diwinf dwinf _odr a r (l & Hl & Hr)%odr_inv.
    apply assemble_inv in Hr as (Hinfo & Hsucc & Hstop & _).
    rewrite Hstop, Hsucc, Hinfo. rewrite Hempty. split_and!.
    + done.
    + intros H. apply Z.ltb_lt. lia.
    + rewrite Z.ltb_lt. lia.
Qed.

(** ** Scalar weights *)

Lemma check_weight_scalar_as_vector (shape_msg type_msg : Message)
    (v : float64) (q n : nat) :
  check_weight shape_msg type_msg (Some (WArray (np.full [q] v))) q n
  = check_weight shape_msg type_msg (Some (WScalar v)) q n.
Proof. unfold check_weight. cbn [np.full shape]. by rewrite decide_True. Qed.

(** X13.  A scalar weight is the vector of that value: passing the number
    [v] as [we] is the same, for the checks, for the call of the routine
    and for the result, as passing the array of [nq] copies of [v], and
    likewise for [wd] with [m] copies. *)
Theorem scalar_weight_is_constant_vector wsd diwinf dwinf _odr (a : Args)
    (m nq n : nat) :
  check_x_y (arg_x a) (arg_y a) = inr (m, nq, n) →
  (∀ v, arg_we a = Some (WScalar v) →
     let a' := with_we a (Some (WArray (np.full [nq] v))) in
     validate wsd a' = validate wsd a
     ∧ odr wsd diwinf dwinf _odr a' = odr wsd diwinf dwinf _odr a)
  ∧ (∀ v, arg_wd a = Some (WScalar v) →
       let a' := with_wd a (Some (WArray (np.full [m] v))) in
       validate wsd a' = validate wsd a
       ∧ odr wsd diwinf dwinf _odr a' = odr wsd diwinf dwinf _odr a).
Proof.
  intros Hxy.
  assert (Hdims : check_dimensions (arg_x a) (arg_y a) (arg_beta0 a)
                  = check_beta0 (arg_beta0 a)
                    ≫= λ '(npar, beta), mret (m, nq, n, npar, beta))
    by (unfold check_dimensions; by rewrite Hxy).
  assert (Hwe : ∀ v, arg_we a = Some (WScalar v) →
            validate wsd (with_we a (Some (WArray (np.full [nq] v))))
            = validate wsd a).
  { intros v Hv. unfold validate. args_of_call. rewrite Hdims.
    destruct (check_beta0 (arg_beta0 a)) as [e|[npar beta]];
      cbn [mbind result_bind mret result_ret];
      [by destruct (interpret_job (arg_job a))|].
    repeat same_check.
    unfold check_we. by rewrite Hv, check_weight_scalar_as_vector. }
  assert (Hwd : ∀ v, arg_wd a = Some (WScalar v) →
            validate wsd (with_wd a (Some (WArray (np.full [m] v))))
            = validate wsd a).
  { intros v Hv. unfold validate. args_of_call. rewrite Hdims.
    destruct (check_beta0 (arg_beta0 a)) as [e|[npar beta]];
      cbn [mbind result_bind mret result_ret];
      [by destruct (interpret_job (arg_job a))|].
    repeat same_check.
    unfold check_wd. by rewrite Hv, check_weight_scalar_as_vector. }
  split; intros v Hv a'; subst a'; (split; [by auto|]);
    apply odr_same_validation; try reflexivity; auto.
Qed.

Lemma scalar_weight_is_constant_vector_witness :
  let a := with_we Sample.call (Some (WScalar 2%float)) in
  Sample.validate (with_we a (Some (WArray (Sample.vec [2]%float))))
  = Sample.validate a
  ∧ ∃ l, Sample.validate a = inr l
         ∧ l_we l = Some (Sample.vec [2]%float).
Proof.
  intros a.
  assert (Hxy : check_x_y (arg_x a) (arg_y a) = inr (1, 1, 3)) by reflexivity.
  destruct (scalar_weight_is_constant_vector Sample.workspace_dimensions
              Sample.diwinf Sample.dwinf Sample._odr a 1 1 3 Hxy) as (Hwe & _).
  split.
  - exact (proj1 (Hwe 2%float eq_refl)).
  - eexists. split; vm_compute; reflexivity.
Defined.

(** ** The call with defaults *)

Lemma validate_defaults wsd (a : Args) :
  defaults a →
  validate wsd a
  = '(m, nq, n, npar, beta) ←
      check_dimensions (arg_x a) (arg_y a) (arg_beta0 a);
    _ ← check_f (arg_f a) (arg_beta0 a) (arg_x a) (arg_y a);
    let '(lwork, liwork) := wsd n m npar nq true in
    mret {| l_flags := MkFlags true false false false;
            l_m := m;  l_nq := nq;  l_n := n;  l_npar := npar;
            l_beta := beta;
            l_delta := np.zeros_like 0%float (arg_x a);
            l_ldifx := 1;  l_ifixx := None;
            l_ldstpd := 1;  l_stpd := None;
            l_ldscld := 1;  l_scld := None;
            l_ldwe := 1;  l_ld2we := 1;  l_we := None;
            l_ldwd := 1;  l_ld2wd := 1;  l_wd := None;
            l_fjacb := fdummy;  l_fjacd := fdummy;
            l_lwork := lwork;  l_liwork := liwork;
            l_work := np.zeros 0%float lwork;
            l_iwork := np.zeros 0%Z liwork |}.
Proof.
  intros (Hwe & Hwd & Hfjacb & Hfjacd & Hifixb & Hifixx & Hdelta0 & Hlower
          & Hupper & Hjob & Hstpb & Hstpd & Hsclb & Hscld & Hwork & Hiwork).
  unfold validate.
  rewrite Hwe, Hwd, Hfjacb, Hfjacd, Hifixb, Hifixx, Hdelta0, Hlower, Hupper,
    Hjob, Hstpb, Hstpd, Hsclb, Hscld, Hwork, Hiwork.
  change (interpret_job 0) with (@inr Error _ (MkFlags true false false false)).
  cbn [mbind result_bind has_delta0 has_jac is_odr is_restart].
  destruct (check_dimensions _ _ _) as [e|[[[[m nq] n] npar] beta]]; [done|].
  cbn [mbind result_bind check_lower check_upper check_like_beta0
       check_delta0 check_ifixx check_stpd check_scld check_like_x check_we
       check_wd check_weight check_jacobian check_work mret result_ret].
  destruct (check_f _ _ _ _) as [e|[]]; [done|].
  cbn [mbind result_bind]. by destruct (wsd n m npar nq true).
Qed.

Lemma validated_model_shape wsd (a : Args) (l : Locals) :
  validate wsd a = inr l →
  shape (arg_f a (arg_beta0 a) (arg_x a)) = shape (arg_y a).
Proof.
  intros Hl. apply validate_inv in Hl as [].
  unfold check_f in v_f0. apply raise_if_inr, bool_decide_eq_false in v_f0.
  by destruct (decide (shape (arg_f a (arg_beta0 a) (arg_x a))
                       = shape (arg_y a))).
Qed.

(** X14.  The plain call [odr(f, beta0, y, x)] is accepted exactly when the
    dimensions can be inferred and [f(beta0, x)] has the shape of [y].  The
    routine then runs in ODR mode with finite-difference Jacobians, every
    leading dimension equal to 1, no weights, masks, steps or scales, the
    initial errors zero in the shape of [x], and fresh zero buffers of the
    lengths computed for the problem. *)
Theorem default_call_accepted_iff wsd (a : Args) :
  defaults a →
  ((∃ l, validate wsd a = inr l)
   ↔ ¬ spec_bad_dimensions (arg_x a) (arg_y a) (arg_beta0 a)
     ∧ shape (arg_f a (arg_beta0 a) (arg_x a)) = shape (arg_y a))
  ∧ (∀ l, validate wsd a = inr l →
       let lengths := wsd (l_n l) (l_m l) (l_npar l) (l_nq l) true in
       l_flags l = MkFlags true false false false
       ∧ (l_ldifx l, l_ldstpd l, l_ldscld l) = (1, 1, 1)
       ∧ (l_ldwe l, l_ld2we l, l_ldwd l, l_ld2wd l) = (1, 1, 1, 1)
       ∧ (l_ifixx l, l_stpd l, l_scld l) = (None, None, None)
       ∧ (l_we l, l_wd l) = (None, None)
       ∧ (l_fjacb l, l_fjacd l) = (fdummy, fdummy)
       ∧ l_beta l = arg_beta0 a
       ∧ l_delta l
         = NDArray (shape (arg_x a)) (replicate (np.size (arg_x a)) 0%float)
       ∧ l_work l = NDArray [lengths.1] (replicate lengths.1 0%float)
       ∧ l_iwork l = NDArray [lengths.2] (replicate lengths.2 0%Z)).
Proof.
  intros Hdef. pose proof (validate_defaults wsd a Hdef) as Hval.
  split.
  - split.
    + intros [l Hl]. split.
      * by destruct (validated_dimensions _ _ _ Hl).
      * by eapply validated_model_shape.
    + intros [Hok Hf]. rewrite Hval.
      destruct (check_dimensions_cases (arg_x a) (arg_y a) (arg_beta0 a))
        as [(Hbad & _) | (_ & -> & _)]; [done|].
      destruct (spec_dimensions _ _ _) as [[[m nq] n] npar].
      cbn [mbind result_bind]. unfold check_f, raise_if.
      rewrite bool_decide_eq_false_2 by (intros Hne; by apply Hne).
      cbn [mbind result_bind mret result_ret].
      destruct (wsd n m npar nq true). eauto.
  - intros l Hl lengths.
    destruct (validated_shapes _ _ _ Hl) as (_ & _ & _ & _ & Hbeta).
    rewrite Hval in Hl.
    apply bind_inr_inv in Hl as ([[[[m nq] n] npar] beta] & _ & Hl).
    apply bind_inr_inv in Hl as ([] & _ & Hl).
    destruct (wsd n m npar nq true) as [lwork liwork] eqn:Hw.
    injection Hl as <-. subst lengths. cbn [l_n l_m l_npar l_nq] in *.
    rewrite Hw. cbn [fst snd]. split_and!; try reflexivity.
    + exact Hbeta.
    + cbn [l_work]. unfold np.zeros, np.full. cbn [foldr].
      by rewrite Nat.mul_1_r.
    + cbn [l_iwork]. unfold np.zeros, np.full. cbn [foldr].
      by rewrite Nat.mul_1_r.
Qed.

Lemma default_call_accepted_iff_witness :
  defaults Sample.call ∧ ∃ l, Sample.validate Sample.call = inr l.
Proof.
  assert (Hdef : defaults Sample.call) by (repeat split).
  split; [exact Hdef|].
  destruct (default_call_accepted_iff Sample.workspace_dimensions Sample.call
              Hdef) as (Hiff & _).
  apply Hiff. split; [|reflexivity].
  intros [H|[H|[H|H]]]; vm_compute in H; try (apply H; by left);
    congruence.
Defined.
